(** * llm_playground.utils: timestamp formatter and retry-with-backoff wrapper

    A shallow embedding of [src/llm_playground/utils.py] and the properties of
    its two helpers, [timestamp_str] and [retry_with_exponential_backoff].

    Conventions of the embedding:
    - Python [str] values are [string]s of bytes; [str.lower] acts on the
      letters A-Z.  (The only non-ASCII code points whose lower-casing
      produces an ASCII letter are U+0130, which yields "i" followed by a
      combining dot, and U+212A, which yields "k"; neither can complete an
      occurrence of "rate limit", so the classification below agrees with
      Python's on every message.)
    - The wrapped operation is an arbitrary stateful callable: a function of
      its arguments and of the world, returning an outcome and a new world.
    - [time.sleep(d)] either rejects the duration [d], raising an exception
      of its own (a negative or not-a-number duration, one too large for the
      clock), or sleeps and so changes the world.  Durations range over a
      type [T] with the multiplication the source uses ([sleep_time *=
      backoff_factor]): binary64 numbers for Python's [float]; which
      durations are rejected is a parameter of the model.
    - What the wrapper does is observed through a trace of events: every
      invocation of the operation and every completed sleep, in order.
    - The clock read by [datetime.datetime.now(datetime.timezone.utc)] is an
      input of [timestamp_str]: a UTC [datetime] value.  [strftime] leaves
      [%Y] to the C library, which zero-fills the year to four digits on some
      platforms and not on others (glibc writes the year 999 as "999"):
      whether it does is a parameter of the model. *)

From Stdlib Require Import ZArith List String Ascii Bool Lia DecimalString.
From Stdlib Require Import Floats.
Import ListNotations.

Local Open Scope string_scope.

(** ** Python string operations used by the source *)

Module PyStr.

(** [c.lower()] for one character. *)
Definition lower_char (c : ascii) : ascii :=
  let n := N_of_ascii c in
  if ((65 <=? n) && (n <=? 90))%N then ascii_of_N (n + 32) else c.

(** [s.lower()] *)
Fixpoint lower (s : string) : string :=
  match s with
  | EmptyString => EmptyString
  | String c s' => String (lower_char c) (lower s')
  end.

(** [s.replace(old, new)] for one-character [old] and [new]. *)
Fixpoint replace (old new : ascii) (s : string) : string :=
  match s with
  | EmptyString => EmptyString
  | String c s' =>
      String (if Ascii.eqb c old then new else c) (replace old new s')
  end.

(** [needle in hay] *)
Fixpoint contains (needle hay : string) : bool :=
  String.prefix needle hay
  || match hay with
     | EmptyString => false
     | String _ hay' => contains needle hay'
     end.

(** [str(n)], which is also how an f-string renders an [int]. *)
Definition of_int (n : Z) : string :=
  NilZero.string_of_int (Z.to_int n).

(** [c * n]: the character [c] repeated [n] times. *)
Fixpoint repeat (c : ascii) (n : nat) : string :=
  match n with
  | O => EmptyString
  | S n' => String c (repeat c n')
  end.

(** [s.zfill(width)] for an unsigned numeral: what the C conversion [%0wd]
    does to a non-negative number. *)
Definition zfill (width : nat) (s : string) : string :=
  repeat "0" (width - String.length s) ++ s.

(** The mathematical reading of "contains the substring". *)
Definition Substring (needle hay : string) : Prop :=
  exists pre post, hay = pre ++ needle ++ post.

End PyStr.

(** ** Exceptions *)

(** A raised Python exception, as far as the source can observe it: its class
    name, whether it is an instance of [Exception] (what [except Exception]
    tests; [KeyboardInterrupt], [SystemExit] and the other direct subclasses
    of [BaseException] are not), and [str(e)]. *)
Record exn : Type := Exn {
  exn_class : string;
  isinstance_Exception : bool;
  str : string
}.

(** [Exception(msg)] *)
Definition Exception (msg : string) : exn := Exn "Exception" true msg.

(** The normal form the test of line 59 searches:
    [str(e).lower().replace("_", " ")]. *)
Definition normalized (msg : string) : string :=
  PyStr.replace "_" " " (PyStr.lower msg).

(** The test of line 59: ["rate limit" in str(e).lower().replace("_", " ")]. *)
Definition rate_limit_message (msg : string) : bool :=
  PyStr.contains "rate limit" (normalized msg).

(** A failure the wrapper retries: caught by [except Exception] (line 58) and
    passing the test of line 59. *)
Definition retryable (e : exn) : bool :=
  isinstance_Exception e && rate_limit_message (str e).

(** The error of line 65. *)
Definition max_retries_exceeded (max_retries : Z) : exn :=
  Exception ("Maximum retries " ++ PyStr.of_int max_retries ++ " exceeded").

(** ** The retrying wrapper *)

Inductive outcome (Res : Type) : Type :=
| Return (r : Res)
| Raise (e : exn).
Arguments Return {Res} r.
Arguments Raise {Res} e.

(** An exception raised by [time.sleep] itself: [ValueError] for a negative
    or not-a-number duration, [OverflowError] for one too large for the
    clock, [OSError] from the operating system.  None of them is a
    rate-limit error. *)
Definition sleep_failure : Type := { e : exn | retryable e = false }.

Definition raised_by_sleep (failure : sleep_failure) : exn :=
  proj1_sig failure.

Section Retry.

Context {Args Res T World : Type}.

(** [*] on durations. *)
Variable mul : T -> T -> T.

(** [time.sleep(d)]: [sleep_check d] is the exception it raises when it
    rejects [d], and [time_sleep d] is what sleeping [d] seconds does to the
    world when it does not. *)
Variable sleep_check : T -> option sleep_failure.
Variable time_sleep : T -> World -> World.

(** What the wrapper is observed to do. *)
Inductive event : Type :=
| Call (args : Args)
| Sleep (seconds : T).

Record run : Type := Run {
  result : outcome Res;
  trace : list event;
  world_after : World
}.

Definition operation : Type := Args -> World -> outcome Res * World.

Variable func : operation.
Variable max_retries : Z.
Variable initial_sleep_time backoff_factor : T.

(** The loop of lines 55-65 with [n] iterations left; [sleep_time] is the
    mutable local of line 53.  An exception that is not an instance of
    [Exception] is not caught by line 58 and leaves the wrapper as it is.
    An exception raised by [time.sleep] on line 61 is raised inside the
    handler and leaves the wrapper too. *)
Fixpoint for_range (n : nat) (sleep_time : T) (args : Args) (w : World)
  : run :=
  match n with
  | O => Run (Raise (max_retries_exceeded max_retries)) [] w
  | S n' =>
      match func args w with
      | (Return r, w1) => Run (Return r) [Call args] w1
      | (Raise e, w1) =>
          if isinstance_Exception e then
            if rate_limit_message (str e) then
              let sleep_time := mul sleep_time backoff_factor in
              match sleep_check sleep_time with
              | Some failure =>
                  Run (Raise (raised_by_sleep failure)) [Call args] w1
              | None =>
                  let w2 := time_sleep sleep_time w1 in
                  let rest := for_range n' sleep_time args w2 in
                  Run (result rest)
                      (Call args :: Sleep sleep_time :: trace rest)
                      (world_after rest)
              end
            else Run (Raise e) [Call args] w1
          else Run (Raise e) [Call args] w1
      end
  end.

(** Lines 52-65; [range(max_retries)] is empty for [max_retries <= 0]. *)
Definition wrapper (args : Args) (w : World) : run :=
  for_range (Z.to_nat max_retries) initial_sleep_time args w.

(** Lines 22-67: the decorator returns the closure [wrapper]. *)
Definition retry_with_exponential_backoff : Args -> World -> run :=
  wrapper.

(** *** Observations on a trace *)

Definition delays (tr : list event) : list T :=
  flat_map (fun ev => match ev with Sleep d => [d] | Call _ => [] end) tr.

Definition calls (tr : list event) : list Args :=
  flat_map (fun ev => match ev with Call a => [a] | Sleep _ => [] end) tr.

(** *** The course of one invocation of the wrapper

    The wrapper is invoked with [args] in world [w].  As long as every
    attempt so far was retried, the state of the loop is determined: *)

(** [sleep_time] after [i] executions of line 60, starting from [s]:
    [s] multiplied [i] times in succession by [backoff_factor]. *)
Fixpoint grow (i : nat) (s : T) : T :=
  match i with
  | O => s
  | S j => grow j (mul s backoff_factor)
  end.

(** The world in which attempt [i + 1] starts when the attempts before it
    were all retried: each of them ran the operation and then slept.  There
    is no such world when [time.sleep] rejected one of the delays: the
    attempt is then never made. *)
Fixpoint world_at (i : nat) (s : T) (args : Args) (w : World)
  : option World :=
  match i with
  | O => Some w
  | S j =>
      let s' := mul s backoff_factor in
      match sleep_check s' with
      | Some _ => None
      | None => world_at j s' args (time_sleep s' (snd (func args w)))
      end
  end.

(** What the operation does on attempt [i + 1] (numbered from [0]), when
    that attempt is made. *)
Definition attempt (i : nat) (args : Args) (w : World)
  : option (outcome Res) :=
  option_map (fun w' => fst (func args w'))
    (world_at i initial_sleep_time args w).

(** The world that attempt leaves behind. *)
Definition world_left_by (i : nat) (args : Args) (w : World)
  : option World :=
  option_map (fun w' => snd (func args w'))
    (world_at i initial_sleep_time args w).

(** The events of [k] retried attempts, starting with [sleep_time = s]. *)
Definition retries (k : nat) (s : T) (args : Args) : list event :=
  flat_map (fun i => [Call args; Sleep (grow i s)]) (seq 1 k).

(** *** Exact arithmetic on durations: [b ^ i] *)

Variable one : T.

Fixpoint pow (b : T) (i : nat) : T :=
  match i with
  | O => one
  | S j => mul (pow b j) b
  end.

End Retry.

Arguments Call {Args T} args.
Arguments Sleep {Args T} seconds.
Arguments Run {Args Res T World} result trace world_after.

(** The defaults of lines 24-26; a Python [float] is a binary64 number. *)

Definition default_max_retries : Z := 20.
Definition default_initial_sleep_time : float := 1.0%float.
Definition default_backoff_factor : float := 1.5%float.

(** *** What [time.sleep] rejects

    The checks CPython 3.11 makes on a [float] duration before it hands it
    to the operating system: it must be a number; in nanoseconds it must
    fit the signed 64-bit clock (exactly 2^63 nanoseconds wraps around to a
    negative duration); and it must not be negative.  The operating system
    may still refuse a delay that would end beyond the range of its own
    clock, which no check on the duration alone decides. *)

Definition sleep_ValueError_negative : sleep_failure :=
  exist _ (Exn "ValueError" true "sleep length must be non-negative")
    eq_refl.

Definition sleep_ValueError_nan : sleep_failure :=
  exist _ (Exn "ValueError" true "Invalid value NaN (not a number)") eq_refl.

Definition sleep_OverflowError : sleep_failure :=
  exist _
    (Exn "OverflowError" true "timestamp too large to convert to C _PyTime_t")
    eq_refl.

Definition float_sleep_check (d : float) : option sleep_failure :=
  if PrimFloat.is_nan d then Some sleep_ValueError_nan
  else
    let ns := (d * 1e9)%float in
    if (ns <? - 0x1p63)%float || (0x1p63 <? ns)%float
    then Some sleep_OverflowError
    else if (d <? 0)%float || (ns =? 0x1p63)%float
    then Some sleep_ValueError_negative
    else None.

(** The binary64 numbers that Python writes [0.1] and [1.1]. *)
Definition one_tenth : float := 0x1.999999999999ap-4%float.
Definition eleven_tenths : float := 0x1.199999999999ap+0%float.

(** *** A scripted operation

    A stand-in for a remote call: it ignores its arguments, answers its
    [n]-th invocation with [script n], and its world is the number of
    invocations so far.  Sleeping does not change that world. *)

Definition scripted {Args Res : Type} (script : nat -> outcome Res)
  : @operation Args Res nat :=
  fun _ n => (script n, S n).

Definition sleep_counts_nothing {T : Type} : T -> nat -> nat :=
  fun _ n => n.

(** Scripts and exceptions used to exercise the wrapper. *)

Definition rate_limited_twice (n : nat) : outcome string :=
  match n with
  | 0 => Raise (Exception "Rate Limit exceeded")
  | 1 => Raise (Exception "RATE_LIMIT")
  | _ => Return "ok"
  end.

Definition rate_limited_three_times (n : nat) : outcome string :=
  match n with
  | 0 | 1 | 2 => Raise (Exception "rate limit")
  | _ => Return "ok"
  end.

Definition always_rate_limited (n : nat) : outcome string :=
  Raise (Exception "rate limit").

Definition always_ok (n : nat) : outcome string :=
  Return "ok".

Definition always_raising (e : exn) (n : nat) : outcome string :=
  Raise e.

(** [SystemExit(msg)], as raised by [sys.exit(msg)]: a [BaseException] that
    is not an [Exception]. *)
Definition SystemExit (msg : string) : exn := Exn "SystemExit" false msg.

(** ** The timestamp formatter *)

Local Open Scope Z_scope.

(** A [datetime.datetime] value in UTC. *)
Record datetime : Type := Datetime {
  year : Z;
  month : Z;
  day : Z;
  hour : Z;
  minute : Z;
  second : Z;
  microsecond : Z
}.

Definition is_leap (y : Z) : bool :=
  (y mod 4 =? 0) && (negb (y mod 100 =? 0) || (y mod 400 =? 0)).

Definition days_in_month (y m : Z) : Z :=
  if m =? 2 then (if is_leap y then 29 else 28)
  else if (m =? 4) || (m =? 6) || (m =? 9) || (m =? 11) then 30
  else 31.

(** The values a [datetime] can hold ([MINYEAR = 1], [MAXYEAR = 9999]). *)
Definition valid_datetime (dt : datetime) : Prop :=
  1 <= year dt <= 9999 /\
  1 <= month dt <= 12 /\
  1 <= day dt <= days_in_month (year dt) (month dt) /\
  0 <= hour dt < 24 /\
  0 <= minute dt < 60 /\
  0 <= second dt < 60 /\
  0 <= microsecond dt < 1000000.

(** Three-way comparison of two UTC datetimes: field by field, as
    [datetime.__lt__] and its siblings compare them. *)
Definition lex (c : comparison) (d : comparison) : comparison :=
  match c with
  | Eq => d
  | _ => c
  end.

Definition datetime_compare (a b : datetime) : comparison :=
  lex (year a ?= year b)
  (lex (month a ?= month b)
  (lex (day a ?= day b)
  (lex (hour a ?= hour b)
  (lex (minute a ?= minute b)
  (lex (second a ?= second b)
       (microsecond a ?= microsecond b)))))).

(** [a <= b]: the instant [a] is not after the instant [b]. *)
Definition datetime_le (a b : datetime) : Prop :=
  datetime_compare a b <> Gt.

(** Line 10. *)
Definition TIMESTAMP_FORMAT : string := "%Y-%m-%d_%H%M%S".

(** [%Y]: the year with century.  [strftime] leaves it to the C library:
    where that zero-fills the year to four digits ([zero_filled]) the year
    999 is written "0999", elsewhere (glibc) "999". *)
Definition year_text (zero_filled : bool) (y : Z) : string :=
  if zero_filled then PyStr.zfill 4 (PyStr.of_int y) else PyStr.of_int y.

(** One conversion of [strftime]: the year, and the month, day, hour,
    minute and second zero-filled to two digits.  A conversion the source
    does not use is left as it stands. *)
Definition directive (zero_filled : bool) (dt : datetime) (c : ascii)
  : string :=
  match c with
  | "Y"%char => year_text zero_filled (year dt)
  | "m"%char => PyStr.zfill 2 (PyStr.of_int (month dt))
  | "d"%char => PyStr.zfill 2 (PyStr.of_int (day dt))
  | "H"%char => PyStr.zfill 2 (PyStr.of_int (hour dt))
  | "M"%char => PyStr.zfill 2 (PyStr.of_int (minute dt))
  | "S"%char => PyStr.zfill 2 (PyStr.of_int (second dt))
  | "%"%char => "%"
  | _ => String "%" (String c EmptyString)
  end.

(** [dt.strftime(fmt)] *)
Fixpoint strftime (zero_filled : bool) (dt : datetime) (fmt : string)
  : string :=
  match fmt with
  | EmptyString => EmptyString
  | String c rest =>
      match c, rest with
      | "%"%char, String d rest' =>
          directive zero_filled dt d ++ strftime zero_filled dt rest'
      | _, _ => String c (strftime zero_filled dt rest)
      end
  end.

(** Lines 13-19; [now] is the value of
    [datetime.datetime.now(datetime.timezone.utc)], and [zero_filled] tells
    how the platform writes [%Y]. *)
Definition timestamp_str (zero_filled : bool) (now : datetime) : string :=
  strftime zero_filled now TIMESTAMP_FORMAT.

(** *** The pattern YYYY-MM-DD_HHMMSS *)

Definition is_digit (c : ascii) : bool :=
  let n := N_of_ascii c in ((48 <=? n) && (n <=? 57))%N.

(** Four digits, a hyphen, two digits, a hyphen, two digits, an underscore
    and six digits; nothing before, between or after. *)
Definition matches_pattern (s : string) : bool :=
  match list_ascii_of_string s with
  | [y1; y2; y3; y4; h1; m1; m2; h2; d1; d2; u; t1; t2; t3; t4; t5; t6] =>
      forallb is_digit [y1; y2; y3; y4; m1; m2; d1; d2; t1; t2; t3; t4; t5; t6]
      && Ascii.eqb h1 "-" && Ascii.eqb h2 "-" && Ascii.eqb u "_"
  | _ => false
  end.

(** The decimal digit [d] (for [0 <= d <= 9]) as a character. *)
Definition digit (d : Z) : ascii := ascii_of_N (48 + Z.to_N d).

(** The [w] low decimal digits of [n], most significant first. *)
Fixpoint fixed (w : nat) (n : Z) : string :=
  match w with
  | O => EmptyString
  | S w' => fixed w' (n / 10) ++ String (digit (n mod 10)) EmptyString
  end.

(** The timestamp after the year: the five two-digit fields. *)
Definition fields_after_year (dt : datetime) : string :=
  fixed 2 (month dt) ++ "-" ++ fixed 2 (day dt)
  ++ "_" ++ fixed 2 (hour dt) ++ fixed 2 (minute dt) ++ fixed 2 (second dt).

(** The timestamp written field by field. *)
Definition fields_of (dt : datetime) : string :=
  fixed 4 (year dt) ++ "-" ++ fixed 2 (month dt) ++ "-" ++ fixed 2 (day dt)
  ++ "_" ++ fixed 2 (hour dt) ++ fixed 2 (minute dt) ++ fixed 2 (second dt).

Local Close Scope Z_scope.

(** ** Further definitions *)

(** A decorated callable used as an operation in its turn, as in
    [retry_with_exponential_backoff(retry_with_exponential_backoff(f))]: the
    caller sees its result and the world it leaves. *)
Definition as_operation {Args Res T World : Type}
  (f : Args -> World -> @run Args Res T World) : @operation Args Res World :=
  fun a w => (result (f a w), world_after (f a w)).

(** Whether every character of [s] passes [p]. *)
Fixpoint all_chars (p : ascii -> bool) (s : string) : bool :=
  match s with
  | EmptyString => true
  | String c s' => p c && all_chars p s'
  end.

(** The character-wise action of [str.lower().replace("_", " ")]. *)
Definition normalized_char (c : ascii) : ascii :=
  let l := PyStr.lower_char c in
  if Ascii.eqb l "_" then " "%char else l.

(** The characters of a decimal numeral: digits and the minus sign. *)
Definition numeral_char (c : ascii) : bool :=
  is_digit c || Ascii.eqb c "-".

(** Whether [c] is one of the characters of [alternatives]. *)
Fixpoint char_in (c : ascii) (alternatives : string) : bool :=
  match alternatives with
  | EmptyString => false
  | String d rest => Ascii.eqb c d || char_in c rest
  end.

(** Whether [s] has one character for each entry of [alternatives], the
    [i]-th taken from the [i]-th entry. *)
Fixpoint spelled (alternatives : list string) (s : string) : bool :=
  match alternatives, s with
  | [], EmptyString => true
  | a :: rest, String c s' => char_in c a && spelled rest s'
  | _, _ => false
  end.

(** The ways of writing "rate limit" that line 59 accepts: either case for
    each letter, and a space or an underscore between the words. *)
Definition rate_limit_spellings : list string :=
  ["rR"; "aA"; "tT"; "eE"; " _"; "lL"; "iI"; "mM"; "iI"; "tT"].

(** [alternatives] lists, position by position, the characters that
    normalise to the characters of [target]. *)
Fixpoint normalise_to (alternatives : list string) (target : string)
  : Prop :=
  match alternatives, target with
  | [], EmptyString => True
  | a :: rest, String t target' =>
      (forall c, Ascii.eqb (normalized_char c) t = char_in c a)
      /\ normalise_to rest target'
  | _, _ => False
  end.

(** Any character but the hyphen. *)
Definition not_hyphen (c : ascii) : bool := negb (Ascii.eqb c "-").

(** [dt.replace(microsecond=0)]: the datetime taken to the second. *)
Definition to_the_second (dt : datetime) : datetime :=
  Datetime (year dt) (month dt) (day dt) (hour dt) (minute dt) (second dt)
    0%Z.

(** * Properties *)

(** ** Strings *)

Lemma prefix_iff (p s : string) :
  String.prefix p s = true <-> exists post, s = p ++ post.
Proof.
  revert s; induction p as [|c p IH]; intros s.
  - destruct s; simpl; split; eauto.
  - destruct s as [|d s]; simpl.
    + split; [discriminate | intros [post H]; discriminate].
    + destruct (ascii_dec c d) as [->|Hcd].
      * rewrite IH. split; intros [post H]; exists post.
        -- now rewrite H.
        -- now injection H.
      * split; [discriminate | intros [post H]; injection H; congruence].
Qed.

(** The executable test [needle in hay] decides [Substring]. *)
Lemma contains_iff (needle hay : string) :
  PyStr.contains needle hay = true <-> PyStr.Substring needle hay.
Proof.
  unfold PyStr.Substring.
  induction hay as [|c hay IH].
  - cbn [PyStr.contains]. rewrite orb_false_r, prefix_iff. split.
    + intros [post H]. now exists EmptyString, post.
    + intros [[|d pre] [post H]]; [now exists post | discriminate].
  - cbn [PyStr.contains]. rewrite orb_true_iff, prefix_iff, IH. split.
    + intros [[post H] | [pre [post H]]].
      * now exists EmptyString, post.
      * exists (String c pre), post. simpl. now rewrite H.
    + intros [[|d pre] [post H]].
      * left. now exists post.
      * right. simpl in H. injection H as _ H. now exists pre, post.
Qed.

Lemma rate_limit_message_iff (msg : string) :
  rate_limit_message msg = true
  <-> PyStr.Substring "rate limit" (normalized msg).
Proof. apply contains_iff. Qed.

Lemma rate_limit_message_false_iff (msg : string) :
  rate_limit_message msg = false
  <-> ~ PyStr.Substring "rate limit" (normalized msg).
Proof.
  rewrite <- rate_limit_message_iff.
  destruct (rate_limit_message msg); split; congruence.
Qed.

(** The error of line 65 names the configured limit and nothing else. *)
Lemma max_retries_exceeded_message (n : Z) :
  PyStr.Substring (PyStr.of_int n) (str (max_retries_exceeded n)).
Proof. now exists "Maximum retries ", " exceeded". Qed.

(** ** The retry loop *)

Section RetryProperties.

Local Open Scope list_scope.

Context {Args Res T World : Type}.
Variable mul : T -> T -> T.
Variable sleep_check : T -> option sleep_failure.
Variable time_sleep : T -> World -> World.
Variable func : @operation Args Res World.
Variable max_retries : Z.
Variable initial_sleep_time backoff_factor : T.

Local Abbreviation loop :=
  (for_range mul sleep_check time_sleep func max_retries backoff_factor).
Local Abbreviation decorated :=
  (retry_with_exponential_backoff mul sleep_check time_sleep func max_retries
     initial_sleep_time backoff_factor).
Local Abbreviation nth_attempt :=
  (attempt mul sleep_check time_sleep func initial_sleep_time backoff_factor).
Local Abbreviation world_of :=
  (world_at mul sleep_check time_sleep func backoff_factor).
Local Abbreviation sleep_time_after := (grow mul backoff_factor).
Local Abbreviation retried := (retries mul backoff_factor).

(** The outcome of the attempt made in world [w'], if there is one. *)
Local Abbreviation outcome_in a ow :=
  (option_map (fun w' : World => fst (func a w')) ow).

(** *** One iteration *)

Lemma for_range_return n s a w r w1 :
  func a w = (Return r, w1) ->
  loop (S n) s a w = Run (Return r) [Call a] w1.
Proof. intros H. simpl. now rewrite H. Qed.

Lemma for_range_propagate n s a w e w1 :
  func a w = (Raise e, w1) ->
  retryable e = false ->
  loop (S n) s a w = Run (Raise e) [Call a] w1.
Proof.
  intros H Hr. simpl. rewrite H. unfold retryable in Hr.
  destruct (isinstance_Exception e); [|reflexivity].
  simpl in Hr. now rewrite Hr.
Qed.

Lemma for_range_retry n s a w e w1 :
  func a w = (Raise e, w1) ->
  retryable e = true ->
  sleep_check (mul s backoff_factor) = None ->
  loop (S n) s a w =
  let s' := mul s backoff_factor in
  let rest := loop n s' a (time_sleep s' w1) in
  Run (result rest) (Call a :: Sleep s' :: trace rest) (world_after rest).
Proof.
  intros H Hr Hs. simpl. rewrite H, Hs.
  apply andb_true_iff in Hr as [-> ->]. reflexivity.
Qed.

Lemma for_range_sleep_rejected n s a w e w1 failure :
  func a w = (Raise e, w1) ->
  retryable e = true ->
  sleep_check (mul s backoff_factor) = Some failure ->
  loop (S n) s a w = Run (Raise (raised_by_sleep failure)) [Call a] w1.
Proof.
  intros H Hr Hs. simpl. rewrite H, Hs.
  apply andb_true_iff in Hr as [-> ->]. reflexivity.
Qed.

(** *** Traces *)

Lemma flat_map_seq_shift {A : Type} (f : nat -> list A) (k start : nat) :
  flat_map f (seq (S start) k) = flat_map (fun i => f (S i)) (seq start k).
Proof.
  revert start; induction k as [|k IH]; intros start; simpl; [reflexivity|].
  now rewrite IH.
Qed.

Lemma retries_succ k s (a : Args) :
  retried (S k) s a =
  Call a :: Sleep (mul s backoff_factor) :: retried k (mul s backoff_factor) a.
Proof.
  unfold retries. cbn [seq flat_map app grow].
  now rewrite flat_map_seq_shift.
Qed.

Lemma retries_snoc k s (a : Args) :
  retried (S k) s a =
  retried k s a ++ [Call a; Sleep (sleep_time_after (S k) s)].
Proof.
  unfold retries. rewrite seq_S, flat_map_app. simpl.
  reflexivity.
Qed.

Lemma delays_app (tr1 tr2 : list (@event Args T)) :
  delays (tr1 ++ tr2) = delays tr1 ++ delays tr2.
Proof. apply flat_map_app. Qed.

Lemma calls_app (tr1 tr2 : list (@event Args T)) :
  calls (tr1 ++ tr2) = calls tr1 ++ calls tr2.
Proof. apply flat_map_app. Qed.

Lemma delays_retries k s (a : Args) :
  delays (retried k s a) = map (fun i => sleep_time_after i s) (seq 1 k).
Proof.
  unfold retries. generalize 1.
  induction k as [|k IH]; intros start; simpl; [reflexivity|].
  now rewrite <- IH.
Qed.

Lemma calls_retries k s (a : Args) :
  calls (retried k s a) = repeat a k.
Proof.
  unfold retries. generalize 1.
  induction k as [|k IH]; intros start; simpl; [reflexivity|].
  now rewrite <- (IH (S start)).
Qed.

Lemma sleep_time_after_succ i : forall s,
  sleep_time_after (S i) s = mul (sleep_time_after i s) backoff_factor.
Proof.
  induction i as [|i IH]; intros s; [reflexivity|].
  change (sleep_time_after (S (S i)) s)
    with (sleep_time_after (S i) (mul s backoff_factor)).
  now rewrite IH.
Qed.

(** *** Accepted delays *)

(** The attempts up to number [k + 1] can all be made exactly when
    [time.sleep] accepts the first [k] delays of the schedule. *)
Lemma world_at_accepted k : forall s a w,
  (forall i, 1 <= i <= k -> sleep_check (sleep_time_after i s) = None) ->
  exists wk, world_of k s a w = Some wk.
Proof.
  induction k as [|k IH]; intros s a w H; simpl; [eauto|].
  pose proof (H 1 ltac:(lia)) as H1. simpl in H1. rewrite H1.
  apply IH. intros i Hi. apply (H (S i)). lia.
Qed.

Lemma world_at_Some_accepted k : forall s a w wk,
  world_of k s a w = Some wk ->
  forall i, 1 <= i <= k -> sleep_check (sleep_time_after i s) = None.
Proof.
  induction k as [|k IH]; intros s a w wk H i Hi; [lia|].
  simpl in H.
  destruct (sleep_check (mul s backoff_factor)) eqn:Hs; [discriminate|].
  destruct i as [|[|i]]; [lia | exact Hs |].
  apply (IH _ _ _ _ H (S i)). lia.
Qed.

Lemma world_at_earlier k : forall s a w wk i,
  world_of k s a w = Some wk -> i <= k ->
  exists wi, world_of i s a w = Some wi.
Proof.
  intros s a w wk i H Hi. apply world_at_accepted.
  intros j Hj. apply (world_at_Some_accepted k s a w wk H). lia.
Qed.

(** *** [k] retried attempts in a row *)

Lemma run_eta (r : @run Args Res T World) :
  Run (result r) (trace r) (world_after r) = r.
Proof. now destruct r. Qed.

Lemma for_range_retries k : forall n s a w wk,
  world_of k s a w = Some wk ->
  (forall i, i < k ->
     exists e, outcome_in a (world_of i s a w) = Some (Raise e)
               /\ retryable e = true) ->
  loop (k + n) s a w =
  let rest := loop n (sleep_time_after k s) a wk in
  Run (result rest) (retried k s a ++ trace rest) (world_after rest).
Proof.
  induction k as [|k IH]; intros n s a w wk Hw H.
  - injection Hw as <-. cbn zeta. simpl. now rewrite run_eta.
  - destruct (H 0) as [e [He Hr]]; [lia|].
    simpl in He, Hw.
    destruct (func a w) as [o w1] eqn:Hf. simpl in He, Hw.
    injection He as ->.
    destruct (sleep_check (mul s backoff_factor)) eqn:Hs; [discriminate|].
    change (S k + n) with (S (k + n)).
    rewrite (for_range_retry _ _ _ _ _ _ Hf Hr Hs). cbn zeta.
    rewrite (IH _ _ _ _ wk Hw).
    + cbn zeta. now rewrite retries_succ.
    + intros i Hi. specialize (H (S i) ltac:(lia)).
      simpl in H. rewrite Hf, Hs in H. exact H.
Qed.

(** *** Whole invocations *)

Lemma wrapper_unfold a w :
  decorated a w = loop (Z.to_nat max_retries) initial_sleep_time a w.
Proof. reflexivity. Qed.

(** After [k] retried attempts the wrapper goes on with what is left of its
    budget. *)
Lemma wrapper_retries k n a w wk :
  Z.to_nat max_retries = k + n ->
  world_of k initial_sleep_time a w = Some wk ->
  (forall i, i < k ->
     exists e, nth_attempt i a w = Some (Raise e) /\ retryable e = true) ->
  decorated a w =
  let rest := loop n (sleep_time_after k initial_sleep_time) a wk in
  Run (result rest) (retried k initial_sleep_time a ++ trace rest)
      (world_after rest).
Proof.
  intros Hn Hw H. rewrite wrapper_unfold, Hn.
  now apply for_range_retries.
Qed.

(** An operation that is rate-limited as long as it is asked uses up the
    budget when every delay is accepted: every attempt is followed by a
    sleep, and the error of line 65 ends the invocation. *)
Lemma wrapper_exhausted a w :
  (forall i, i < Z.to_nat max_retries ->
     exists e, nth_attempt i a w = Some (Raise e) /\ retryable e = true) ->
  (forall i, 1 <= i <= Z.to_nat max_retries ->
     sleep_check (sleep_time_after i initial_sleep_time) = None) ->
  exists w',
    world_of (Z.to_nat max_retries) initial_sleep_time a w = Some w'
    /\ decorated a w =
       Run (Raise (max_retries_exceeded max_retries))
           (retried (Z.to_nat max_retries) initial_sleep_time a) w'.
Proof.
  intros H Hacc.
  destruct (world_at_accepted _ _ a w Hacc) as [w' Hw'].
  exists w'. split; [exact Hw'|].
  rewrite (wrapper_retries (Z.to_nat max_retries) 0 a w w');
    [|lia|exact Hw'|exact H].
  cbn zeta. simpl. now rewrite app_nil_r.
Qed.

Lemma calls_for_range n : forall s a w,
  Forall (fun a' => a' = a) (calls (trace (loop n s a w))).
Proof.
  induction n as [|n IH]; intros s a w; simpl.
  - constructor.
  - destruct (func a w) as [[r|e] w1]; simpl.
    + repeat constructor.
    + destruct (isinstance_Exception e); simpl; [|repeat constructor].
      destruct (rate_limit_message (str e)); simpl; [|repeat constructor].
      destruct (sleep_check (mul s backoff_factor)); simpl;
        [repeat constructor|].
      constructor; [reflexivity | apply IH].
Qed.

(** *** The last attempt of an invocation *)

(** When attempts [1..k] were retried and budget is left, attempt [k + 1]
    decides the invocation unless it is retried as well. *)
Lemma wrapper_decided_by k a w (o : outcome Res) :
  (Z.of_nat k < max_retries)%Z ->
  (forall i, i < k ->
     exists e, nth_attempt i a w = Some (Raise e) /\ retryable e = true) ->
  nth_attempt k a w = Some o ->
  match o with Return _ => True | Raise e => retryable e = false end ->
  exists w',
    world_left_by mul sleep_check time_sleep func initial_sleep_time
      backoff_factor k a w = Some w'
    /\ decorated a w = Run o (retried k initial_sleep_time a ++ [Call a]) w'.
Proof.
  intros Hk H Ho Hfinal.
  unfold attempt in Ho. unfold world_left_by.
  destruct (world_of k initial_sleep_time a w) as [wk|] eqn:Hw;
    [|discriminate].
  simpl in Ho. injection Ho as Ho. simpl.
  rewrite (wrapper_retries k (S (Z.to_nat max_retries - S k)) a w wk);
    [|lia|exact Hw|exact H].
  cbn zeta.
  destruct (func a wk) as [o' w1] eqn:Hf.
  simpl in Ho. subst o'. exists w1. split; [reflexivity|].
  destruct o as [r|e].
  - now rewrite (for_range_return _ _ _ _ _ _ Hf).
  - now rewrite (for_range_propagate _ _ _ _ _ _ Hf Hfinal).
Qed.

(** When attempts [1..k + 1] were retried and [time.sleep] rejects the
    delay after the last of them, its exception ends the invocation. *)
Lemma wrapper_sleep_rejected k a w failure :
  (Z.of_nat k < max_retries)%Z ->
  (forall i, i <= k ->
     exists e, nth_attempt i a w = Some (Raise e) /\ retryable e = true) ->
  sleep_check (sleep_time_after (S k) initial_sleep_time) = Some failure ->
  exists w',
    world_left_by mul sleep_check time_sleep func initial_sleep_time
      backoff_factor k a w = Some w'
    /\ decorated a w =
       Run (Raise (raised_by_sleep failure))
           (retried k initial_sleep_time a ++ [Call a]) w'.
Proof.
  intros Hk H Hs.
  destruct (H k (le_n k)) as (e & He & Hr).
  unfold attempt in He. unfold world_left_by.
  destruct (world_of k initial_sleep_time a w) as [wk|] eqn:Hw;
    [|discriminate].
  simpl in He. injection He as He. simpl.
  rewrite (wrapper_retries k (S (Z.to_nat max_retries - S k)) a w wk);
    [|lia|exact Hw|intros i Hi; apply H; lia].
  cbn zeta.
  destruct (func a wk) as [o' w1] eqn:Hf.
  simpl in He. subst o'. exists w1. split; [reflexivity|].
  rewrite sleep_time_after_succ in Hs.
  now rewrite (for_range_sleep_rejected _ _ _ _ _ _ _ Hf Hr Hs).
Qed.

End RetryProperties.

(** ** The claims about the retrying wrapper *)

Section RetryClaims.

Local Open Scope list_scope.

Context {Args Res T World : Type}.
Variable mul : T -> T -> T.
Variable sleep_check : T -> option sleep_failure.
Variable time_sleep : T -> World -> World.
Variable func : @operation Args Res World.
Variable max_retries : Z.
Variable initial_sleep_time backoff_factor : T.

(** C5.  An operation that succeeds on the first attempt, whatever its
    arguments: the wrapper invokes it once with the caller's arguments,
    returns its result and leaves the world as the operation left it; no
    sleep takes place. *)
Theorem first_attempt_success_is_forwarded
  (args : Args) (w w1 : World) (r : Res) :
  (0 < max_retries)%Z ->
  func args w = (Return r, w1) ->
  retry_with_exponential_backoff mul sleep_check time_sleep func max_retries
    initial_sleep_time backoff_factor args w
  = Run (Return r) [Call args] w1
  /\ delays (trace (retry_with_exponential_backoff mul sleep_check
                      time_sleep func max_retries initial_sleep_time
                      backoff_factor args w))
     = [].
Proof.
  intros Hmax Hf.
  rewrite wrapper_unfold.
  destruct (Z.to_nat max_retries) as [|n] eqn:Hn; [lia|].
  now rewrite (for_range_return _ _ _ _ _ _ _ _ _ _ _ _ Hf).
Qed.

(** C8.  With [max_retries <= 0] the loop body never runs: the wrapper
    raises the retries-exhausted error at once, the operation is not invoked,
    nothing sleeps, the world is untouched, and the message of the error
    contains [max_retries]. *)
Theorem no_attempt_when_max_retries_nonpositive (args : Args) (w : World) :
  (max_retries <= 0)%Z ->
  retry_with_exponential_backoff mul sleep_check time_sleep func max_retries
    initial_sleep_time backoff_factor args w
  = Run (Raise (max_retries_exceeded max_retries)) [] w
  /\ PyStr.Substring (PyStr.of_int max_retries)
       (str (max_retries_exceeded max_retries)).
Proof.
  intros Hmax. split; [|apply max_retries_exceeded_message].
  rewrite wrapper_unfold.
  now replace (Z.to_nat max_retries) with 0 by lia.
Qed.

(** C10.  Every invocation of the operation within one invocation of the
    wrapper, the first attempt and every retry alike, receives exactly the
    arguments the caller supplied. *)
Theorem same_arguments_on_every_attempt (args : Args) (w : World) :
  Forall (fun passed => passed = args)
    (calls (trace (retry_with_exponential_backoff mul sleep_check time_sleep
                     func max_retries initial_sleep_time backoff_factor
                     args w))).
Proof. rewrite wrapper_unfold. apply calls_for_range. Qed.

(** C3.  A failure that is not classified as a rate-limit error, on attempt
    [j + 1] after [j] retried attempts: the wrapper raises that very
    exception; the failing invocation is the last event of the trace, so no
    sleep follows it and no further attempt is made; the operation was
    invoked [j + 1] times and the only sleeps are those of the [j] earlier
    retries.  On the first attempt ([j = 0]) the trace is the single
    invocation. *)
Theorem non_retryable_failure_propagates
  (j : nat) (e : exn) (args : Args) (w : World) :
  (Z.of_nat j < max_retries)%Z ->
  (forall i, i < j ->
     exists e', attempt mul sleep_check time_sleep func initial_sleep_time
                  backoff_factor i args w = Some (Raise e')
                /\ retryable e' = true) ->
  attempt mul sleep_check time_sleep func initial_sleep_time backoff_factor
    j args w
  = Some (Raise e) ->
  retryable e = false ->
  let out := retry_with_exponential_backoff mul sleep_check time_sleep func
               max_retries initial_sleep_time backoff_factor args w in
  result out = Raise e
  /\ trace out = retries mul backoff_factor j initial_sleep_time args
                 ++ [Call args]
  /\ List.length (calls (trace out)) = S j
  /\ List.length (delays (trace out)) = j
  /\ world_left_by mul sleep_check time_sleep func initial_sleep_time
       backoff_factor j args w
     = Some (world_after out)
  /\ (j = 0 -> trace out = [Call args]).
Proof.
  intros Hj H He Hr out. subst out.
  destruct (wrapper_decided_by _ _ _ _ _ _ _ j args w (Raise e) Hj H He Hr)
    as (w' & Hw' & ->).
  simpl. repeat split.
  - rewrite calls_app, calls_retries, length_app, repeat_length.
    simpl. lia.
  - rewrite delays_app, delays_retries, length_app, length_map, length_seq.
    simpl. lia.
  - exact Hw'.
  - now intros ->.
Qed.

(** C9.  An operation that fails with a rate-limit error on each of the
    [max_retries] attempts, with delays that [time.sleep] accepts: every
    attempt, the last one included, is followed by a sleep, so there are
    exactly [max_retries] sleeps; the trace ends with the sleep that follows
    the last attempt, and then the retries-exhausted error is raised. *)
Theorem sleeps_after_final_attempt (args : Args) (w : World) :
  (0 < max_retries)%Z ->
  (forall i, (Z.of_nat i < max_retries)%Z ->
     exists e, attempt mul sleep_check time_sleep func initial_sleep_time
                 backoff_factor i args w = Some (Raise e)
               /\ retryable e = true) ->
  (forall i, 1 <= i <= Z.to_nat max_retries ->
     sleep_check (grow mul backoff_factor i initial_sleep_time) = None) ->
  let out := retry_with_exponential_backoff mul sleep_check time_sleep func
               max_retries initial_sleep_time backoff_factor args w in
  Z.of_nat (List.length (delays (trace out))) = max_retries
  /\ trace out
     = retries mul backoff_factor (Z.to_nat max_retries - 1)
         initial_sleep_time args
       ++ [Call args;
           Sleep (grow mul backoff_factor (Z.to_nat max_retries)
                    initial_sleep_time)]
  /\ result out = Raise (max_retries_exceeded max_retries).
Proof.
  intros Hmax H Hacc out. subst out.
  destruct (wrapper_exhausted mul sleep_check time_sleep func max_retries
              initial_sleep_time backoff_factor args w)
    as (w' & _ & ->); [intros i Hi; apply H; lia | exact Hacc |].
  simpl. repeat split.
  - rewrite delays_retries, length_map, length_seq. lia.
  - replace (Z.to_nat max_retries) with (S (Z.to_nat max_retries - 1))
      at 1 by lia.
    rewrite retries_snoc.
    now replace (S (Z.to_nat max_retries - 1)) with (Z.to_nat max_retries)
      by lia.
Qed.

(** C2.  An operation that fails with a rate-limit error on every attempt,
    with delays that [time.sleep] accepts: the wrapper invokes it exactly
    [max_retries] times and then raises the retries-exhausted error.  That
    error is [Exception] with the message "Maximum retries <max_retries>
    exceeded": its message contains the configured limit, and it is the same
    error whatever operation was wrapped and whatever its failures said. *)
Theorem retries_exhausted_after_max_retries (args : Args) (w : World) :
  (0 <= max_retries)%Z ->
  (forall i, (Z.of_nat i < max_retries)%Z ->
     exists e, attempt mul sleep_check time_sleep func initial_sleep_time
                 backoff_factor i args w = Some (Raise e)
               /\ retryable e = true) ->
  (forall i, 1 <= i <= Z.to_nat max_retries ->
     sleep_check (grow mul backoff_factor i initial_sleep_time) = None) ->
  let out := retry_with_exponential_backoff mul sleep_check time_sleep func
               max_retries initial_sleep_time backoff_factor args w in
  result out = Raise (max_retries_exceeded max_retries)
  /\ Z.of_nat (List.length (calls (trace out))) = max_retries
  /\ max_retries_exceeded max_retries
     = Exception ("Maximum retries " ++ PyStr.of_int max_retries
                  ++ " exceeded")%string
  /\ PyStr.Substring (PyStr.of_int max_retries)
       (str (max_retries_exceeded max_retries))
  /\ (forall (func' : @operation Args Res World) (args' : Args) (w' : World)
        (initial' backoff' : T),
        (forall i, (Z.of_nat i < max_retries)%Z ->
           exists e, attempt mul sleep_check time_sleep func' initial'
                       backoff' i args' w'
                     = Some (Raise e)
                     /\ retryable e = true) ->
        (forall i, 1 <= i <= Z.to_nat max_retries ->
           sleep_check (grow mul backoff' i initial') = None) ->
        result (retry_with_exponential_backoff mul sleep_check time_sleep
                  func' max_retries initial' backoff' args' w')
        = result out).
Proof.
  intros Hmax H Hacc out. subst out.
  destruct (wrapper_exhausted mul sleep_check time_sleep func max_retries
              initial_sleep_time backoff_factor args w)
    as (w1 & _ & ->); [intros i Hi; apply H; lia | exact Hacc |].
  simpl. repeat split.
  - rewrite calls_retries, repeat_length. lia.
  - apply max_retries_exceeded_message.
  - intros func' args' w' initial' backoff' H' Hacc'.
    destruct (wrapper_exhausted mul sleep_check time_sleep func' max_retries
                initial' backoff' args' w')
      as (w2 & _ & ->); [intros i Hi; apply H'; lia | exact Hacc' |].
    reflexivity.
Qed.

(** C4, as the code has it.  A failure [e] on attempt [j + 1], after [j]
    retried attempts and with budget left.  When [e] is an instance of
    [Exception], the message alone decides: if [str(e)], lower-cased and with
    underscores replaced by spaces, contains "rate limit", the failure is
    retried: the wrapper goes on to line 61 and sleeps after the failed
    invocation (or, when [time.sleep] rejects the delay, raises what
    [time.sleep] raises, not [e]); if it does not, the wrapper raises [e] at
    once, the failed invocation being the last event.  When [e] is not an
    instance of [Exception] it is not caught, and the wrapper raises [e] at
    once whatever its message.  "Rate Limit exceeded", "RATE_LIMIT" and
    "rate limit" contain the substring after normalisation; "ratelimit" does
    not. *)
Theorem classification_of_failures
  (j : nat) (e : exn) (args : Args) (w : World) :
  (Z.of_nat j < max_retries)%Z ->
  (forall i, i < j ->
     exists e', attempt mul sleep_check time_sleep func initial_sleep_time
                  backoff_factor i args w = Some (Raise e')
                /\ retryable e' = true) ->
  attempt mul sleep_check time_sleep func initial_sleep_time backoff_factor
    j args w
  = Some (Raise e) ->
  let out := retry_with_exponential_backoff mul sleep_check time_sleep func
               max_retries initial_sleep_time backoff_factor args w in
  let propagated :=
    result out = Raise e
    /\ trace out
       = retries mul backoff_factor j initial_sleep_time args ++ [Call args]
    /\ world_left_by mul sleep_check time_sleep func initial_sleep_time
         backoff_factor j args w
       = Some (world_after out) in
  (isinstance_Exception e = true ->
   PyStr.Substring "rate limit" (normalized (str e)) ->
   (sleep_check (grow mul backoff_factor (S j) initial_sleep_time) = None ->
    exists rest,
      trace out
      = retries mul backoff_factor j initial_sleep_time args
        ++ Call args
           :: Sleep (grow mul backoff_factor (S j) initial_sleep_time)
           :: rest)
   /\ (forall failure,
         sleep_check (grow mul backoff_factor (S j) initial_sleep_time)
         = Some failure ->
         result out = Raise (raised_by_sleep failure)
         /\ trace out
            = retries mul backoff_factor j initial_sleep_time args
              ++ [Call args]))
  /\ (isinstance_Exception e = true ->
      ~ PyStr.Substring "rate limit" (normalized (str e)) ->
      propagated)
  /\ (isinstance_Exception e = false -> propagated)
  /\ PyStr.Substring "rate limit" (normalized "Rate Limit exceeded")
  /\ PyStr.Substring "rate limit" (normalized "RATE_LIMIT")
  /\ PyStr.Substring "rate limit" (normalized "rate limit")
  /\ ~ PyStr.Substring "rate limit" (normalized "ratelimit").
Proof.
  intros Hj H He out propagated. subst out propagated.
  assert (Hprop : retryable e = false ->
            result (retry_with_exponential_backoff mul sleep_check
                      time_sleep func max_retries initial_sleep_time
                      backoff_factor args w) = Raise e
            /\ trace (retry_with_exponential_backoff mul sleep_check
                        time_sleep func max_retries initial_sleep_time
                        backoff_factor args w)
               = retries mul backoff_factor j initial_sleep_time args
                 ++ [Call args]
            /\ world_left_by mul sleep_check time_sleep func
                 initial_sleep_time backoff_factor j args w
               = Some (world_after
                         (retry_with_exponential_backoff mul sleep_check
                            time_sleep func max_retries initial_sleep_time
                            backoff_factor args w))).
  { intros Hr.
    destruct (wrapper_decided_by _ _ _ _ _ _ _ j args w (Raise e) Hj H He Hr)
      as (w' & Hw' & ->).
    simpl. auto. }
  split; [|split; [|split]].
  - intros Hi Hs.
    assert (Hr : retryable e = true).
    { unfold retryable. rewrite Hi. now apply rate_limit_message_iff. }
    assert (Hall : forall i, i <= j ->
              exists e', attempt mul sleep_check time_sleep func
                           initial_sleep_time backoff_factor i args w
                         = Some (Raise e')
                         /\ retryable e' = true).
    { intros i Hlt. destruct (Nat.eq_dec i j) as [->|Hne].
      - eauto.
      - apply H. lia. }
    split.
    + intros Hacc.
      assert (Hw : exists wk,
                world_at mul sleep_check time_sleep func backoff_factor
                  (S j) initial_sleep_time args w = Some wk).
      { unfold attempt in He.
        destruct (world_at mul sleep_check time_sleep func backoff_factor
                    j initial_sleep_time args w) as [wj|] eqn:Hwj;
          [|discriminate].
        apply world_at_accepted. intros i Hi'.
        destruct (Nat.eq_dec i (S j)) as [->|Hne]; [exact Hacc|].
        apply (world_at_Some_accepted _ _ _ _ _ j _ _ _ _ Hwj). lia. }
      destruct Hw as [wk Hwk].
      rewrite (wrapper_retries _ _ _ _ _ _ _ (S j)
                 (Z.to_nat max_retries - S j) args w wk);
        [|lia|exact Hwk|intros i Hlt; apply Hall; lia].
      cbn zeta. cbn [trace]. rewrite retries_snoc, <- app_assoc.
      simpl. eauto.
    + intros failure Hrej.
      destruct (wrapper_sleep_rejected _ _ _ _ _ _ _ j args w failure
                  Hj Hall Hrej) as (w' & _ & ->).
      simpl. auto.
  - intros Hi Hs. apply Hprop.
    unfold retryable. rewrite Hi. now apply rate_limit_message_false_iff.
  - intros Hi. apply Hprop. unfold retryable. now rewrite Hi.
  - repeat split; try (apply rate_limit_message_iff; reflexivity).
    apply rate_limit_message_false_iff. reflexivity.
Qed.

(** *** Exact arithmetic: the delays as powers of the backoff factor *)

Section ExactDurations.

Variable one : T.
Hypothesis mul_assoc : forall x y z, mul x (mul y z) = mul (mul x y) z.
Hypothesis mul_one_r : forall x, mul x one = x.

Lemma grow_pow i s :
  grow mul backoff_factor i s = mul s (pow mul one backoff_factor i).
Proof.
  induction i as [|i IH].
  - simpl. now rewrite mul_one_r.
  - rewrite sleep_time_after_succ, IH. simpl. now rewrite mul_assoc.
Qed.

Lemma retries_pow k s (args : Args) :
  retries mul backoff_factor k s args
  = flat_map
      (fun i => [Call args; Sleep (mul s (pow mul one backoff_factor i))])
      (seq 1 k).
Proof.
  unfold retries. apply flat_map_ext. intros i. now rewrite grow_pow.
Qed.

End ExactDurations.

(** C1, as the code has it.  An operation that fails with a rate-limit
    error on attempts [1..k] and succeeds on attempt [k + 1], with
    [k < max_retries]: the wrapper returns the operation's result; exactly
    [k] sleeps take place, each after a failed invocation, and the trace
    starts with the first invocation, which no sleep precedes.  The [i]-th
    sleep lasts [initial_sleep_time] multiplied [i] times in succession by
    [backoff_factor], as line 60 computes it; [time.sleep] accepted each of
    these delays.  Where multiplication is exact (associative, with a right
    unit) that is [initial_sleep_time * backoff_factor ^ i]. *)
Theorem success_after_k_rate_limit_failures
  (one : T) (k : nat) (r : Res) (args : Args) (w : World) :
  (Z.of_nat k < max_retries)%Z ->
  (forall i, i < k ->
     exists e, attempt mul sleep_check time_sleep func initial_sleep_time
                 backoff_factor i args w = Some (Raise e)
               /\ retryable e = true) ->
  attempt mul sleep_check time_sleep func initial_sleep_time backoff_factor
    k args w
  = Some (Return r) ->
  let out := retry_with_exponential_backoff mul sleep_check time_sleep func
               max_retries initial_sleep_time backoff_factor args w in
  result out = Return r
  /\ delays (trace out)
     = map (fun i => grow mul backoff_factor i initial_sleep_time) (seq 1 k)
  /\ List.length (delays (trace out)) = k
  /\ trace out
     = retries mul backoff_factor k initial_sleep_time args ++ [Call args]
  /\ hd_error (trace out) = Some (Call args)
  /\ List.length (calls (trace out)) = S k
  /\ (forall i, 1 <= i <= k ->
        sleep_check (grow mul backoff_factor i initial_sleep_time) = None)
  /\ ((forall x y z, mul x (mul y z) = mul (mul x y) z) ->
      (forall x, mul x one = x) ->
      delays (trace out)
      = map (fun i => mul initial_sleep_time (pow mul one backoff_factor i))
          (seq 1 k)).
Proof.
  intros Hk H Hr out. subst out.
  destruct (wrapper_decided_by _ _ _ _ _ _ _ k args w (Return r) Hk H Hr I)
    as (w' & _ & ->).
  cbn [result trace].
  assert (Hd : delays (retries mul backoff_factor k initial_sleep_time args
                       ++ [Call args])
               = map (fun i => grow mul backoff_factor i initial_sleep_time)
                   (seq 1 k)).
  { rewrite delays_app, delays_retries. simpl. now rewrite app_nil_r. }
  repeat split.
  - exact Hd.
  - now rewrite Hd, length_map, length_seq.
  - unfold retries. destruct k; reflexivity.
  - rewrite calls_app, calls_retries, length_app, repeat_length.
    simpl. lia.
  - unfold attempt in Hr.
    destruct (world_at mul sleep_check time_sleep func backoff_factor k
                initial_sleep_time args w) as [wk|] eqn:Hwk; [|discriminate].
    exact (world_at_Some_accepted _ _ _ _ _ k _ _ _ _ Hwk).
  - intros Hassoc Hone. rewrite Hd. apply map_ext. intros i.
    now apply grow_pow.
Qed.

End RetryClaims.

(** ** The claims at concrete inputs

    The operation is scripted and the caller's argument is a prompt;
    durations are binary64 numbers, Python's [float]. *)

Lemma world_at_scripted {Args Res T : Type} (mul : T -> T -> T)
  (sleep_check : T -> option sleep_failure)
  (script : nat -> outcome Res) (b : T) (a : Args) (i : nat) :
  forall s n,
    (forall j, 1 <= j <= i -> sleep_check (grow mul b j s) = None) ->
    world_at mul sleep_check sleep_counts_nothing (scripted script) b i s a n
    = Some (n + i).
Proof.
  induction i as [|i IH]; intros s n H; simpl; [f_equal; lia|].
  pose proof (H 1 ltac:(lia)) as H1. simpl in H1. rewrite H1.
  rewrite IH.
  - unfold sleep_counts_nothing. f_equal. lia.
  - intros j Hj. apply (H (S j)). lia.
Qed.

(** Attempt [i + 1] of an invocation that starts in world [0] is the
    [i]-th entry of the script, when the delays before it are accepted. *)
Lemma attempt_scripted {Args Res T : Type} (mul : T -> T -> T)
  (sleep_check : T -> option sleep_failure)
  (script : nat -> outcome Res) (s b : T) (a : Args) (i : nat) :
  (forall j, 1 <= j <= i -> sleep_check (grow mul b j s) = None) ->
  attempt mul sleep_check sleep_counts_nothing (scripted script) s b i a 0
  = Some (script i).
Proof.
  intros H. unfold attempt. now rewrite world_at_scripted.
Qed.

(** With the defaults of the source and binary64 durations, two rate-limit
    failures cost sleeps of 1.5 and 2.25 seconds. *)
Example default_backoff_example :
  retry_with_exponential_backoff PrimFloat.mul float_sleep_check
    sleep_counts_nothing (scripted rate_limited_twice) default_max_retries
    default_initial_sleep_time default_backoff_factor "prompt" 0
  = Run (Return "ok")
      [Call "prompt"; Sleep 1.5%float; Call "prompt"; Sleep 2.25%float;
       Call "prompt"]%list
      3.
Proof. reflexivity. Qed.

(** With a negative backoff factor the first delay is negative:
    [time.sleep] raises [ValueError] inside the handler, after one
    invocation and no sleep. *)
Example negative_backoff_example :
  retry_with_exponential_backoff PrimFloat.mul float_sleep_check sleep_counts_nothing
    (scripted always_rate_limited) 3 1%float (-2)%float "prompt" 0
  = Run (Raise (Exn "ValueError" true "sleep length must be non-negative"))
      [Call "prompt"]%list 1.
Proof. reflexivity. Qed.

Lemma success_after_k_rate_limit_failures_witness :
  (2 < 20)%Z
  /\ (forall i, i < 2 ->
        exists e, attempt PrimFloat.mul float_sleep_check sleep_counts_nothing
                    (scripted rate_limited_twice) default_initial_sleep_time
                    default_backoff_factor i "prompt" 0
                  = Some (Raise e)
                  /\ retryable e = true)
  /\ attempt PrimFloat.mul float_sleep_check sleep_counts_nothing
       (scripted rate_limited_twice) default_initial_sleep_time
       default_backoff_factor 2 "prompt" 0
     = Some (Return "ok")
  /\ result (retry_with_exponential_backoff PrimFloat.mul float_sleep_check
               sleep_counts_nothing (scripted rate_limited_twice)
               default_max_retries default_initial_sleep_time
               default_backoff_factor "prompt" 0)
     = Return "ok"
  /\ delays (trace (retry_with_exponential_backoff PrimFloat.mul
                      float_sleep_check sleep_counts_nothing
                      (scripted rate_limited_twice) default_max_retries
                      default_initial_sleep_time default_backoff_factor
                      "prompt" 0))
     = [1.5; 2.25]%float.
Proof.
  assert (H1 : (Z.of_nat 2 < default_max_retries)%Z)
    by (unfold default_max_retries; simpl; lia).
  assert (H2 : forall i, i < 2 ->
            exists e, attempt PrimFloat.mul float_sleep_check
                        sleep_counts_nothing (scripted rate_limited_twice)
                        default_initial_sleep_time default_backoff_factor
                        i "prompt" 0
                      = Some (Raise e)
                      /\ retryable e = true).
  { intros [|[|i]] Hi; [eexists; split; reflexivity .. | lia]. }
  assert (H3 : attempt PrimFloat.mul float_sleep_check sleep_counts_nothing
                 (scripted rate_limited_twice) default_initial_sleep_time
                 default_backoff_factor 2 "prompt" 0
               = Some (Return "ok")) by reflexivity.
  destruct (success_after_k_rate_limit_failures PrimFloat.mul
              float_sleep_check sleep_counts_nothing
              (scripted rate_limited_twice) default_max_retries
              default_initial_sleep_time default_backoff_factor 1%float
              2 "ok" "prompt" 0 H1 H2 H3)
    as (Hres & Hdel & _).
  split; [lia|]. split; [exact H2|]. split; [exact H3|].
  split; [exact Hres | exact Hdel].
Defined.

(** C1 as stated fails on binary64 numbers.  With [initial_sleep_time =
    0.1] and [backoff_factor = 1.1], an operation that is rate-limited
    three times and then succeeds: the wrapper returns its result after
    three sleeps, and the third sleep, (((0.1 * 1.1) * 1.1) * 1.1), is not
    0.1 * 1.1 ^ 3: the two products round differently. *)
Lemma third_delay_is_not_initial_times_power :
  result (retry_with_exponential_backoff PrimFloat.mul float_sleep_check
            sleep_counts_nothing (scripted rate_limited_three_times)
            default_max_retries one_tenth eleven_tenths "prompt" 0)
  = Return "ok"
  /\ List.length
       (delays (trace (retry_with_exponential_backoff PrimFloat.mul
                         float_sleep_check sleep_counts_nothing
                         (scripted rate_limited_three_times)
                         default_max_retries one_tenth eleven_tenths
                         "prompt" 0)))
     = 3
  /\ PrimFloat.eqb
       (nth 2
          (delays (trace (retry_with_exponential_backoff PrimFloat.mul
                            float_sleep_check sleep_counts_nothing
                            (scripted rate_limited_three_times)
                            default_max_retries one_tenth eleven_tenths
                            "prompt" 0)))
          0%float)
       (PrimFloat.mul one_tenth (pow PrimFloat.mul 1%float eleven_tenths 3))
     = false.
Proof. repeat split; vm_compute; reflexivity. Qed.

Lemma retries_exhausted_after_max_retries_witness :
  (0 <= 3)%Z
  /\ (forall i, (Z.of_nat i < 3)%Z ->
        exists e, attempt PrimFloat.mul float_sleep_check sleep_counts_nothing
                    (scripted always_rate_limited) 1%float 2%float i "prompt" 0
                  = Some (Raise e)
                  /\ retryable e = true)
  /\ (forall i, 1 <= i <= Z.to_nat 3 ->
        float_sleep_check (grow PrimFloat.mul 2%float i 1%float) = None)
  /\ result (retry_with_exponential_backoff PrimFloat.mul float_sleep_check
               sleep_counts_nothing (scripted always_rate_limited)
               3 1%float 2%float "prompt" 0)
     = Raise (Exception "Maximum retries 3 exceeded")
  /\ calls (trace (retry_with_exponential_backoff PrimFloat.mul float_sleep_check
                     sleep_counts_nothing (scripted always_rate_limited)
                     3 1%float 2%float "prompt" 0))
     = ["prompt"; "prompt"; "prompt"]%list.
Proof.
  assert (H1 : (0 <= 3)%Z) by lia.
  assert (H2 : forall i, (Z.of_nat i < 3)%Z ->
            exists e, attempt PrimFloat.mul float_sleep_check sleep_counts_nothing
                        (scripted always_rate_limited) 1%float 2%float i "prompt" 0
                      = Some (Raise e)
                      /\ retryable e = true).
  { intros [|[|[|i]]] Hi; [eexists; split; reflexivity .. | lia]. }
  assert (H3 : forall i, 1 <= i <= Z.to_nat 3 ->
            float_sleep_check (grow PrimFloat.mul 2%float i 1%float) = None).
  { intros [|[|[|[|i]]]] Hi; try reflexivity; simpl in Hi; lia. }
  destruct (retries_exhausted_after_max_retries PrimFloat.mul float_sleep_check
              sleep_counts_nothing (scripted always_rate_limited)
              3 1%float 2%float "prompt" 0 H1 H2 H3)
    as (Hres & _).
  split; [exact H1|]. split; [exact H2|]. split; [exact H3|].
  split; [exact Hres | reflexivity].
Defined.

Lemma sleeps_after_final_attempt_witness :
  (0 < 3)%Z
  /\ (forall i, (Z.of_nat i < 3)%Z ->
        exists e, attempt PrimFloat.mul float_sleep_check sleep_counts_nothing
                    (scripted always_rate_limited) 1%float 2%float i "prompt" 0
                  = Some (Raise e)
                  /\ retryable e = true)
  /\ (forall i, 1 <= i <= Z.to_nat 3 ->
        float_sleep_check (grow PrimFloat.mul 2%float i 1%float) = None)
  /\ trace (retry_with_exponential_backoff PrimFloat.mul float_sleep_check
              sleep_counts_nothing (scripted always_rate_limited)
              3 1%float 2%float "prompt" 0)
     = [Call "prompt"; Sleep 2%float; Call "prompt"; Sleep 4%float;
        Call "prompt"; Sleep 8%float]%list
  /\ result (retry_with_exponential_backoff PrimFloat.mul float_sleep_check
               sleep_counts_nothing (scripted always_rate_limited)
               3 1%float 2%float "prompt" 0)
     = Raise (Exception "Maximum retries 3 exceeded").
Proof.
  assert (H1 : (0 < 3)%Z) by lia.
  assert (H2 : forall i, (Z.of_nat i < 3)%Z ->
            exists e, attempt PrimFloat.mul float_sleep_check sleep_counts_nothing
                        (scripted always_rate_limited) 1%float 2%float i "prompt" 0
                      = Some (Raise e)
                      /\ retryable e = true).
  { intros [|[|[|i]]] Hi; [eexists; split; reflexivity .. | lia]. }
  assert (H3 : forall i, 1 <= i <= Z.to_nat 3 ->
            float_sleep_check (grow PrimFloat.mul 2%float i 1%float) = None).
  { intros [|[|[|[|i]]]] Hi; try reflexivity; simpl in Hi; lia. }
  destruct (sleeps_after_final_attempt PrimFloat.mul float_sleep_check
              sleep_counts_nothing (scripted always_rate_limited)
              3 1%float 2%float "prompt" 0 H1 H2 H3)
    as (_ & Htr & Hres).
  split; [exact H1|]. split; [exact H2|]. split; [exact H3|].
  split; [exact Htr | exact Hres].
Defined.

Lemma non_retryable_failure_propagates_witness :
  (0 < 20)%Z
  /\ attempt PrimFloat.mul float_sleep_check sleep_counts_nothing
       (scripted (always_raising (Exn "ValueError" true "invalid prompt")))
       1%float 2%float 0 "prompt" 0
     = Some (Raise (Exn "ValueError" true "invalid prompt"))
  /\ retryable (Exn "ValueError" true "invalid prompt") = false
  /\ result (retry_with_exponential_backoff PrimFloat.mul float_sleep_check
               sleep_counts_nothing
               (scripted
                  (always_raising (Exn "ValueError" true "invalid prompt")))
               20 1%float 2%float "prompt" 0)
     = Raise (Exn "ValueError" true "invalid prompt")
  /\ trace (retry_with_exponential_backoff PrimFloat.mul float_sleep_check
              sleep_counts_nothing
              (scripted
                 (always_raising (Exn "ValueError" true "invalid prompt")))
              20 1%float 2%float "prompt" 0)
     = [Call "prompt"]%list.
Proof.
  assert (H1 : (Z.of_nat 0 < 20)%Z) by (simpl; lia).
  assert (H2 : forall i, i < 0 ->
            exists e', attempt PrimFloat.mul float_sleep_check sleep_counts_nothing
                         (scripted
                            (always_raising
                               (Exn "ValueError" true "invalid prompt")))
                         1%float 2%float i "prompt" 0
                       = Some (Raise e')
                       /\ retryable e' = true) by (intros i Hi; lia).
  destruct (non_retryable_failure_propagates PrimFloat.mul float_sleep_check
              sleep_counts_nothing
              (scripted
                 (always_raising (Exn "ValueError" true "invalid prompt")))
              20 1%float 2%float 0 (Exn "ValueError" true "invalid prompt")
              "prompt" 0 H1 H2 eq_refl eq_refl)
    as (Hres & _ & _ & _ & _ & Htr).
  split; [lia|]. split; [reflexivity|]. split; [reflexivity|].
  split; [exact Hres | exact (Htr eq_refl)].
Defined.

Lemma classification_of_failures_witness :
  (0 < 20)%Z
  /\ attempt PrimFloat.mul float_sleep_check sleep_counts_nothing
       (scripted (always_raising (Exception "ratelimit")))
       1%float 2%float 0 "prompt" 0
     = Some (Raise (Exception "ratelimit"))
  /\ result (retry_with_exponential_backoff PrimFloat.mul float_sleep_check
               sleep_counts_nothing
               (scripted (always_raising (Exception "ratelimit")))
               20 1%float 2%float "prompt" 0)
     = Raise (Exception "ratelimit")
  /\ trace (retry_with_exponential_backoff PrimFloat.mul float_sleep_check
              sleep_counts_nothing
              (scripted (always_raising (Exception "ratelimit")))
              20 1%float 2%float "prompt" 0)
     = [Call "prompt"]%list.
Proof.
  assert (H1 : (Z.of_nat 0 < 20)%Z) by (simpl; lia).
  assert (H2 : forall i, i < 0 ->
            exists e', attempt PrimFloat.mul float_sleep_check sleep_counts_nothing
                         (scripted (always_raising (Exception "ratelimit")))
                         1%float 2%float i "prompt" 0
                       = Some (Raise e')
                       /\ retryable e' = true) by (intros i Hi; lia).
  destruct (classification_of_failures PrimFloat.mul float_sleep_check
              sleep_counts_nothing
              (scripted (always_raising (Exception "ratelimit")))
              20 1%float 2%float 0 (Exception "ratelimit") "prompt" 0
              H1 H2 eq_refl)
    as (_ & Hprop & _ & _ & _ & _ & Hno).
  destruct (Hprop eq_refl Hno) as (Hres & Htr & _).
  split; [lia|]. split; [reflexivity|].
  split; [exact Hres | exact Htr].
Defined.

Lemma first_attempt_success_is_forwarded_witness :
  (0 < 20)%Z
  /\ scripted always_ok "prompt" 0 = (Return "ok", 1)
  /\ retry_with_exponential_backoff PrimFloat.mul float_sleep_check
       sleep_counts_nothing (scripted always_ok) 20 1%float 2%float "prompt" 0
     = Run (Return "ok") [Call "prompt"]%list 1.
Proof.
  split; [lia|]. split; [reflexivity|].
  apply (first_attempt_success_is_forwarded PrimFloat.mul float_sleep_check
           sleep_counts_nothing (scripted always_ok) 20 1%float 2%float
           "prompt" 0 1 "ok");
    [lia | reflexivity].
Defined.

Lemma no_attempt_when_max_retries_nonpositive_witness :
  (-1 <= 0)%Z
  /\ retry_with_exponential_backoff PrimFloat.mul float_sleep_check
       sleep_counts_nothing (scripted always_ok) (-1) 1%float 2%float "prompt" 0
     = Run (Raise (Exception "Maximum retries -1 exceeded")) []%list 0.
Proof.
  split; [lia|].
  apply (no_attempt_when_max_retries_nonpositive PrimFloat.mul float_sleep_check
           sleep_counts_nothing (scripted always_ok) (-1) 1%float 2%float
           "prompt" 0).
  lia.
Defined.

(** C4 as stated fails: [SystemExit("Rate limit exceeded")] has a message
    that contains "rate limit" after normalisation, yet the wrapper does not
    retry it: line 58 does not catch it, the single invocation is the whole
    trace and the exception leaves the wrapper. *)
Lemma rate_limit_message_of_SystemExit_not_retried :
  PyStr.Substring "rate limit"
    (normalized (str (SystemExit "Rate limit exceeded")))
  /\ retry_with_exponential_backoff PrimFloat.mul float_sleep_check
       sleep_counts_nothing
       (scripted (always_raising (SystemExit "Rate limit exceeded")))
       20 1%float 2%float "prompt" 0
     = Run (Raise (SystemExit "Rate limit exceeded")) [Call "prompt"]%list 1.
Proof.
  split; [|reflexivity].
  apply rate_limit_message_iff. reflexivity.
Qed.

(** * Further properties of the message test *)

Local Close Scope Z_scope.

Lemma normalized_cons (c : ascii) (s : string) :
  normalized (String c s) = String (normalized_char c) (normalized s).
Proof. reflexivity. Qed.

Lemma normalized_app (s t : string) :
  normalized (s ++ t) = normalized s ++ normalized t.
Proof.
  induction s as [|c s IH]; [reflexivity|].
  cbn [append]. now rewrite !normalized_cons, IH.
Qed.

Lemma normalized_length (s : string) :
  String.length (normalized s) = String.length s.
Proof.
  induction s as [|c s IH]; [reflexivity|].
  rewrite normalized_cons. simpl. now rewrite IH.
Qed.

(** A split of a normalised message comes from a split of the message. *)
Lemma normalized_split (s : string) : forall a b,
  normalized s = a ++ b ->
  exists a' b', s = a' ++ b' /\ normalized a' = a /\ normalized b' = b.
Proof.
  induction s as [|c s IH]; intros a b H.
  - destruct a; [|discriminate]. destruct b; [|discriminate].
    now exists EmptyString, EmptyString.
  - rewrite normalized_cons in H. destruct a as [|d a].
    + exists EmptyString, (String c s). simpl in H. subst b.
      now rewrite normalized_cons.
    + simpl in H. injection H as Hd H.
      destruct (IH a b H) as (a' & b' & -> & Ha & Hb).
      exists (String c a'), b'. rewrite normalized_cons, Ha, Hd. auto.
Qed.

Lemma all_chars_app (p : ascii -> bool) (s t : string) :
  all_chars p (s ++ t) = all_chars p s && all_chars p t.
Proof.
  induction s as [|c s IH]; [reflexivity|].
  simpl. now rewrite IH, andb_assoc.
Qed.

Lemma all_chars_normalized (p : ascii -> bool) (s : string) :
  all_chars p (normalized s) = all_chars (fun c => p (normalized_char c)) s.
Proof.
  induction s as [|c s IH]; [reflexivity|].
  rewrite normalized_cons. simpl. now rewrite IH.
Qed.

Lemma all_chars_impl (p q : ascii -> bool) (s : string) :
  (forall c, p c = true -> q c = true) ->
  all_chars p s = true -> all_chars q s = true.
Proof.
  intros Hpq. induction s as [|c s IH]; [reflexivity|].
  simpl. rewrite !andb_true_iff. intros [Hc Hs]. auto.
Qed.

Lemma all_chars_substring (p : ascii -> bool) (t s : string) :
  PyStr.Substring t s -> all_chars p s = true -> all_chars p t = true.
Proof.
  intros (pre & post & ->). rewrite !all_chars_app, !andb_true_iff. tauto.
Qed.

Lemma all_chars_string_of_uint (d : Decimal.uint) :
  all_chars numeral_char (NilEmpty.string_of_uint d) = true.
Proof. induction d; simpl; auto. Qed.

Lemma all_chars_of_int (n : Z) :
  all_chars numeral_char (PyStr.of_int n) = true.
Proof.
  unfold PyStr.of_int, NilZero.string_of_int, NilZero.string_of_uint.
  destruct (Z.to_int n) as [d|d];
    pose proof (all_chars_string_of_uint d) as H; destruct d; auto.
Qed.

(** The error of line 65 is not one the wrapper would retry: its message
    has no letter "l" in it, whatever the limit. *)
Lemma max_retries_exceeded_not_retryable (n : Z) :
  retryable (max_retries_exceeded n) = false.
Proof.
  unfold retryable, max_retries_exceeded, Exception.
  cbn [isinstance_Exception str andb].
  apply rate_limit_message_false_iff. intros Hsub.
  set (p := fun c => negb (Ascii.eqb c "l")).
  assert (Hl : all_chars p "rate limit" = true).
  { apply (all_chars_substring p _ _ Hsub).
    rewrite all_chars_normalized, !all_chars_app, !andb_true_iff.
    split; [reflexivity|]. split; [|reflexivity].
    apply (all_chars_impl numeral_char); [|apply all_chars_of_int].
    intros [[|] [|] [|] [|] [|] [|] [|] [|]]; vm_compute;
      congruence. }
  discriminate Hl.
Qed.

Lemma spelled_normalized (alternatives : list string) :
  forall target s,
    normalise_to alternatives target ->
    (normalized s = target <-> spelled alternatives s = true).
Proof.
  induction alternatives as [|a rest IH]; intros [|t target] s H;
    try contradiction.
  - destruct s; simpl; split; (reflexivity || discriminate).
  - destruct H as [Hc H]. destruct s as [|c s].
    + simpl. split; discriminate.
    + rewrite normalized_cons. cbn [spelled].
      rewrite andb_true_iff, <- Hc, <- (IH target s H), Ascii.eqb_eq.
      split; [intros [= -> ->]; auto | intros [-> ->]; reflexivity].
Qed.

Lemma rate_limit_spellings_normalise :
  normalise_to rate_limit_spellings "rate limit".
Proof.
  repeat split;
    intros [[|] [|] [|] [|] [|] [|] [|] [|]]; reflexivity.
Qed.

(** X7.  Which messages are rate-limit messages: exactly those that
    contain, anywhere, ten consecutive characters spelling "rate limit"
    with each letter in either case and a space or an underscore between
    the two words. *)
Theorem rate_limit_message_spellings (msg : string) :
  rate_limit_message msg = true
  <-> exists pre mid post,
        msg = pre ++ mid ++ post
        /\ spelled rate_limit_spellings mid = true.
Proof.
  rewrite rate_limit_message_iff. split.
  - intros (pre & post & H).
    destruct (normalized_split _ _ _ H) as (pre' & rest & -> & _ & H').
    destruct (normalized_split _ _ _ H') as (mid & post' & -> & Hmid & _).
    exists pre', mid, post'. split; [reflexivity|].
    now apply (spelled_normalized _ _ _ rate_limit_spellings_normalise).
  - intros (pre & mid & post & -> & Hmid).
    apply (spelled_normalized _ _ _ rate_limit_spellings_normalise) in Hmid.
    exists (normalized pre), (normalized post).
    now rewrite !normalized_app, Hmid.
Qed.

(** ** The timestamp formatter *)

Local Open Scope Z_scope.

(** *** Zero-filled numerals are fixed-width decimal expansions *)

Lemma forallb_below (P : Z -> bool) (bound : Z) :
  forallb P (map Z.of_nat (seq 0 (Z.to_nat bound))) = true ->
  forall n, 0 <= n < bound -> P n = true.
Proof.
  intros H n Hn. rewrite forallb_forall in H. apply H.
  apply in_map_iff. exists (Z.to_nat n). split; [lia|].
  apply in_seq. lia.
Qed.

Lemma zfill_2_fixed (n : Z) :
  0 <= n < 100 -> PyStr.zfill 2 (PyStr.of_int n) = fixed 2 n.
Proof.
  intros Hn. apply String.eqb_eq.
  apply (forallb_below
           (fun n => String.eqb (PyStr.zfill 2 (PyStr.of_int n)) (fixed 2 n))
           100); [vm_compute; reflexivity | exact Hn].
Qed.

Lemma zfill_4_fixed (n : Z) :
  0 <= n < 10000 -> PyStr.zfill 4 (PyStr.of_int n) = fixed 4 n.
Proof.
  intros Hn. apply String.eqb_eq.
  apply (forallb_below
           (fun n => String.eqb (PyStr.zfill 4 (PyStr.of_int n)) (fixed 4 n))
           10000); [vm_compute; reflexivity | exact Hn].
Qed.

Lemma days_in_month_le_31 (y m : Z) : days_in_month y m <= 31.
Proof.
  unfold days_in_month.
  destruct (m =? 2); [destruct (is_leap y); lia|].
  destruct ((m =? 4) || (m =? 6) || (m =? 9) || (m =? 11))%bool; lia.
Qed.

Lemma of_int_fixed_4 (n : Z) :
  1000 <= n < 10000 -> PyStr.of_int n = fixed 4 n.
Proof.
  intros Hn.
  pose proof (forallb_below
                (fun n => (n <? 1000)
                          || String.eqb (PyStr.of_int n) (fixed 4 n))
                10000) as H.
  specialize (H ltac:(vm_compute; reflexivity) n ltac:(lia)).
  apply orb_true_iff in H as [H|H]; [lia | now apply String.eqb_eq].
Qed.

(** From the year 1000 on the platforms agree on [%Y]. *)
Lemma year_text_fixed (zero_filled : bool) (y : Z) :
  1000 <= y <= 9999 -> year_text zero_filled y = fixed 4 y.
Proof.
  intros Hy. destruct zero_filled; simpl.
  - apply zfill_4_fixed. lia.
  - apply of_int_fixed_4. lia.
Qed.

(** On a valid datetime, [strftime] with the format of line 10 writes the
    year as the platform does and the other five fields at two digits. *)
Lemma timestamp_str_after_year (zero_filled : bool) (now : datetime) :
  valid_datetime now ->
  timestamp_str zero_filled now
  = year_text zero_filled (year now) ++ "-" ++ fields_after_year now.
Proof.
  intros (Hy & Hm & Hd & HH & HM & HS & _).
  pose proof (days_in_month_le_31 (year now) (month now)) as Hdm.
  unfold timestamp_str, TIMESTAMP_FORMAT, fields_after_year.
  cbn [strftime directive].
  rewrite !zfill_2_fixed by lia.
  reflexivity.
Qed.

Lemma fields_of_after_year (dt : datetime) :
  fields_of dt = fixed 4 (year dt) ++ "-" ++ fields_after_year dt.
Proof. reflexivity. Qed.

(** From the year 1000 on, the timestamp is the six calendar fields at
    their fixed widths. *)
Lemma timestamp_str_fields (zero_filled : bool) (now : datetime) :
  valid_datetime now -> 1000 <= year now ->
  timestamp_str zero_filled now = fields_of now.
Proof.
  intros Hv Hy. rewrite (timestamp_str_after_year _ _ Hv).
  destruct Hv as (Hy' & _).
  rewrite year_text_fixed by lia. reflexivity.
Qed.

(** *** The pattern *)

Lemma is_digit_digit (d : Z) : 0 <= d < 10 -> is_digit (digit d) = true.
Proof.
  intros Hd.
  apply (forallb_below (fun d => is_digit (digit d)) 10);
    [reflexivity | exact Hd].
Qed.

Lemma fixed_2_digits (n : Z) :
  fixed 2 n
  = String (digit (n / 10 mod 10)) (String (digit (n mod 10)) EmptyString).
Proof. reflexivity. Qed.

Lemma fixed_4_digits (n : Z) :
  fixed 4 n
  = String (digit (n / 10 / 10 / 10 mod 10))
      (String (digit (n / 10 / 10 mod 10))
         (String (digit (n / 10 mod 10))
            (String (digit (n mod 10)) EmptyString))).
Proof. reflexivity. Qed.

Lemma fields_of_matches_pattern (dt : datetime) :
  matches_pattern (fields_of dt) = true.
Proof.
  unfold fields_of. rewrite fixed_4_digits, !fixed_2_digits.
  unfold matches_pattern.
  cbn [append list_ascii_of_string forallb].
  rewrite !is_digit_digit by (apply Z.mod_pos_bound; lia).
  reflexivity.
Qed.

(** C6.  Whatever valid UTC datetime of the year 1000 or later the clock
    returns, the string returned by [timestamp_str] has the shape
    YYYY-MM-DD_HHMMSS: four digits, a hyphen, two digits, a hyphen, two
    digits, an underscore and six digits; and the digit groups are the
    decimal expansions of the year, month, day, hour, minute and second of
    that datetime.  This holds however the platform writes [%Y]. *)
Theorem timestamp_str_matches_pattern
  (zero_filled : bool) (now : datetime) :
  valid_datetime now ->
  1000 <= year now ->
  matches_pattern (timestamp_str zero_filled now) = true
  /\ timestamp_str zero_filled now
     = (fixed 4 (year now) ++ "-" ++ fixed 2 (month now) ++ "-"
        ++ fixed 2 (day now) ++ "_" ++ fixed 2 (hour now)
        ++ fixed 2 (minute now) ++ fixed 2 (second now))%string.
Proof.
  intros Hv Hy. rewrite (timestamp_str_fields _ now Hv Hy).
  split; [apply fields_of_matches_pattern | reflexivity].
Qed.

(** *** Lexicographic order *)

Lemma string_compare_app (s1 s2 t1 t2 : string) :
  String.length s1 = String.length s2 ->
  String.compare (s1 ++ t1) (s2 ++ t2)
  = lex (String.compare s1 s2) (String.compare t1 t2).
Proof.
  revert s2. induction s1 as [|c s1 IH]; intros [|d s2] Hlen;
    try discriminate; simpl; [reflexivity|].
  injection Hlen as Hlen.
  destruct (Ascii.compare c d); [now apply IH | reflexivity ..].
Qed.

Lemma string_length_app (s t : string) :
  String.length (s ++ t) = (String.length s + String.length t)%nat.
Proof. induction s as [|c s IH]; simpl; [reflexivity | now rewrite IH]. Qed.

Lemma length_fixed (w : nat) : forall n, String.length (fixed w n) = w.
Proof.
  induction w as [|w IH]; intros n; simpl; [reflexivity|].
  rewrite string_length_app, IH. simpl. lia.
Qed.

Lemma digit_compare (a b : Z) :
  0 <= a < 10 -> 0 <= b < 10 ->
  Ascii.compare (digit a) (digit b) = (a ?= b).
Proof.
  intros Ha Hb. unfold Ascii.compare, digit.
  rewrite !N_ascii_embedding by lia.
  rewrite <- N2Z.inj_compare, !N2Z.inj_add, !Z2N.id by lia.
  apply Z.add_compare_mono_l.
Qed.

(** Comparing two numbers by quotient first and remainder second. *)
Lemma compare_div_mod (a b : Z) :
  lex (a / 10 ?= b / 10) (a mod 10 ?= b mod 10) = (a ?= b).
Proof.
  pose proof (Z.div_mod a 10 ltac:(lia)) as Ha.
  pose proof (Z.div_mod b 10 ltac:(lia)) as Hb.
  pose proof (Z.mod_pos_bound a 10 ltac:(lia)) as Hra.
  pose proof (Z.mod_pos_bound b 10 ltac:(lia)) as Hrb.
  symmetry.
  destruct (Z.compare_spec (a / 10) (b / 10)) as [Hq|Hq|Hq]; simpl.
  - destruct (Z.compare_spec (a mod 10) (b mod 10)) as [Hr|Hr|Hr].
    + apply Z.compare_eq_iff. lia.
    + apply Z.compare_lt_iff. lia.
    + apply Z.compare_gt_iff. lia.
  - apply Z.compare_lt_iff. lia.
  - apply Z.compare_gt_iff. lia.
Qed.

(** On numbers that fit the width, the order of the fixed-width numerals is
    the order of the numbers. *)
Lemma fixed_compare (w : nat) : forall a b,
  0 <= a < 10 ^ Z.of_nat w -> 0 <= b < 10 ^ Z.of_nat w ->
  String.compare (fixed w a) (fixed w b) = (a ?= b).
Proof.
  induction w as [|w IH]; intros a b Ha Hb.
  - simpl in *. symmetry. apply Z.compare_eq_iff. lia.
  - rewrite Nat2Z.inj_succ, Z.pow_succ_r in Ha, Hb by lia.
    cbn [fixed].
    rewrite string_compare_app by now rewrite !length_fixed.
    rewrite IH.
    + cbn [String.compare].
      rewrite digit_compare by (apply Z.mod_pos_bound; lia).
      rewrite <- (compare_div_mod a b).
      now destruct (a / 10 ?= b / 10), (a mod 10 ?= b mod 10).
    + split; [apply Z.div_pos; lia | apply Z.div_lt_upper_bound; lia].
    + split; [apply Z.div_pos; lia | apply Z.div_lt_upper_bound; lia].
Qed.

Lemma string_compare_cons (c : ascii) (s t : string) :
  String.compare (String c s) (String c t) = String.compare s t.
Proof.
  simpl. unfold Ascii.compare. now rewrite N.compare_refl.
Qed.

(** The order of two timestamps is the order of the datetimes they were
    made from, taken to the second. *)
Lemma fields_of_compare (a b : datetime) :
  valid_datetime a -> valid_datetime b ->
  String.compare (fields_of a) (fields_of b)
  = lex (year a ?= year b)
      (lex (month a ?= month b)
         (lex (day a ?= day b)
            (lex (hour a ?= hour b)
               (lex (minute a ?= minute b) (second a ?= second b))))).
Proof.
  intros (Hya & Hma & Hda & HHa & HMa & HSa & _)
         (Hyb & Hmb & Hdb & HHb & HMb & HSb & _).
  pose proof (days_in_month_le_31 (year a) (month a)).
  pose proof (days_in_month_le_31 (year b) (month b)).
  unfold fields_of.
  rewrite string_compare_app by now rewrite !length_fixed.
  rewrite (fixed_compare 4) by (simpl; lia). f_equal.
  cbn [append]. rewrite string_compare_cons.
  rewrite string_compare_app by now rewrite !length_fixed.
  rewrite (fixed_compare 2) by (simpl; lia). f_equal.
  cbn [append]. rewrite string_compare_cons.
  rewrite string_compare_app by now rewrite !length_fixed.
  rewrite (fixed_compare 2) by (simpl; lia). f_equal.
  cbn [append]. rewrite string_compare_cons.
  rewrite string_compare_app by now rewrite !length_fixed.
  rewrite (fixed_compare 2) by (simpl; lia). f_equal.
  rewrite string_compare_app by now rewrite !length_fixed.
  rewrite !(fixed_compare 2) by (simpl; lia).
  reflexivity.
Qed.

Lemma datetime_le_year (t1 t2 : datetime) :
  datetime_le t1 t2 -> year t1 <= year t2.
Proof.
  unfold datetime_le, datetime_compare. intros H.
  destruct (Z.compare_spec (year t1) (year t2)) as [Hc|Hc|Hc];
    [lia | lia | now simpl in H].
Qed.

(** C7.  For two valid UTC datetimes [t1 <= t2], [t1] of the year 1000 or
    later, the timestamp of [t1] is lexicographically less than or equal to
    the timestamp of [t2]: sorting the strings sorts the instants.  This
    holds however the platform writes [%Y]. *)
Theorem timestamp_str_monotone (zero_filled : bool) (t1 t2 : datetime) :
  valid_datetime t1 -> valid_datetime t2 ->
  1000 <= year t1 ->
  datetime_le t1 t2 ->
  String.leb (timestamp_str zero_filled t1) (timestamp_str zero_filled t2)
  = true.
Proof.
  intros H1 H2 Hy Hle.
  pose proof (datetime_le_year t1 t2 Hle) as Hy2.
  rewrite (timestamp_str_fields _ t1 H1 Hy),
    (timestamp_str_fields _ t2 H2 ltac:(lia)).
  unfold String.leb. rewrite (fields_of_compare t1 t2 H1 H2).
  unfold datetime_le, datetime_compare in Hle.
  destruct (year t1 ?= year t2), (month t1 ?= month t2),
    (day t1 ?= day t2), (hour t1 ?= hour t2), (minute t1 ?= minute t2),
    (second t1 ?= second t2); simpl in *; try reflexivity;
    now destruct (microsecond t1 ?= microsecond t2).
Qed.

(** *** The formatter at concrete instants *)

Ltac decide_by_computation :=
  repeat split; vm_compute; (reflexivity || discriminate).

Example timestamp_str_example (zero_filled : bool) :
  timestamp_str zero_filled (Datetime 2024 3 7 14 23 5 0)
  = "2024-03-07_142305".
Proof. now destruct zero_filled. Qed.

(** Before the year 1000 the platforms differ: glibc does not zero-fill
    the year, and the timestamp is shorter than the pattern. *)
Example timestamp_str_year_999 :
  timestamp_str false (Datetime 999 12 31 23 59 59 0) = "999-12-31_235959"
  /\ timestamp_str true (Datetime 999 12 31 23 59 59 0)
     = "0999-12-31_235959".
Proof. split; reflexivity. Qed.

Lemma timestamp_str_matches_pattern_witness :
  valid_datetime (Datetime 2024 3 7 14 23 5 0)
  /\ 1000 <= year (Datetime 2024 3 7 14 23 5 0)
  /\ timestamp_str false (Datetime 2024 3 7 14 23 5 0) = "2024-03-07_142305"
  /\ matches_pattern "2024-03-07_142305" = true.
Proof.
  assert (Hv : valid_datetime (Datetime 2024 3 7 14 23 5 0))
    by decide_by_computation.
  assert (Hy : 1000 <= year (Datetime 2024 3 7 14 23 5 0))
    by decide_by_computation.
  destruct (timestamp_str_matches_pattern false
              (Datetime 2024 3 7 14 23 5 0) Hv Hy)
    as [Hm _].
  split; [exact Hv|]. split; [exact Hy|].
  split; [reflexivity | exact Hm].
Defined.

Lemma timestamp_str_monotone_witness :
  valid_datetime (Datetime 2023 12 31 23 59 59 999999)
  /\ valid_datetime (Datetime 2024 1 1 0 0 0 0)
  /\ 1000 <= year (Datetime 2023 12 31 23 59 59 999999)
  /\ datetime_le (Datetime 2023 12 31 23 59 59 999999)
       (Datetime 2024 1 1 0 0 0 0)
  /\ String.leb "2023-12-31_235959" "2024-01-01_000000" = true.
Proof.
  assert (H1 : valid_datetime (Datetime 2023 12 31 23 59 59 999999))
    by decide_by_computation.
  assert (H2 : valid_datetime (Datetime 2024 1 1 0 0 0 0))
    by decide_by_computation.
  assert (Hy : 1000 <= year (Datetime 2023 12 31 23 59 59 999999))
    by decide_by_computation.
  assert (Hle : datetime_le (Datetime 2023 12 31 23 59 59 999999)
                  (Datetime 2024 1 1 0 0 0 0))
    by decide_by_computation.
  split; [exact H1|]. split; [exact H2|]. split; [exact Hy|].
  split; [exact Hle|].
  exact (timestamp_str_monotone false _ _ H1 H2 Hy Hle).
Defined.

(** * Further properties of the wrapper *)

Local Close Scope Z_scope.

Section RetryCoverage.

Local Open Scope list_scope.

Context {Args Res T World : Type}.
Variable mul : T -> T -> T.
Variable sleep_check : T -> option sleep_failure.
Variable time_sleep : T -> World -> World.
Variable func : @operation Args Res World.
Variable max_retries : Z.
Variable initial_sleep_time backoff_factor : T.

Local Abbreviation loop :=
  (for_range mul sleep_check time_sleep func max_retries backoff_factor).
Local Abbreviation nth_attempt :=
  (attempt mul sleep_check time_sleep func initial_sleep_time backoff_factor).
Local Abbreviation nth_delay i :=
  (grow mul backoff_factor i initial_sleep_time).

(** What it means for attempt [i + 1] to be retried. *)
Local Abbreviation retried_at i a w :=
  (exists e, nth_attempt i a w = Some (Raise e) /\ retryable e = true).

(** What it means for an outcome to end the invocation. *)
Local Abbreviation decisive o :=
  (match o with Return _ => True | Raise e => retryable e = false end).

(** Among the first [n] attempts and the sleeps that follow them, either
    all attempts are retried and all delays accepted, or there is a first
    attempt that is not retried, or a first delay that is rejected. *)
Lemma first_decisive_step (a : Args) (w : World) (n : nat) :
  ((forall i, i < n -> retried_at i a w)
   /\ (forall i, 1 <= i <= n -> sleep_check (nth_delay i) = None))
  \/ (exists k o, k < n
                  /\ (forall i, i < k -> retried_at i a w)
                  /\ nth_attempt k a w = Some o
                  /\ decisive o)
  \/ (exists k failure, k < n
                        /\ (forall i, i <= k -> retried_at i a w)
                        /\ sleep_check (nth_delay (S k)) = Some failure).
Proof.
  induction n as [|n [[IH Hacc] | [(k & o & Hk & H) | (k & f & Hk & H)]]].
  - left. split; intros i Hi; lia.
  - destruct (world_at_accepted mul sleep_check time_sleep func
                backoff_factor n initial_sleep_time a w Hacc) as [wn Hwn].
    assert (Hn : nth_attempt n a w = Some (fst (func a wn)))
      by (unfold attempt; now rewrite Hwn).
    destruct (fst (func a wn)) as [r|e] eqn:Ho.
    + right. left. exists n, (Return r). auto.
    + destruct (retryable e) eqn:Hr.
      * assert (Hall : forall i, i <= n -> retried_at i a w).
        { intros i Hi. destruct (Nat.eq_dec i n) as [->|Hne].
          - eauto.
          - apply IH. lia. }
        destruct (sleep_check (nth_delay (S n))) as [f|] eqn:Hs.
        -- right. right. exists n, f. auto.
        -- left. split.
           ++ intros i Hi. apply Hall. lia.
           ++ intros i Hi. destruct (Nat.eq_dec i (S n)) as [->|Hne].
              ** exact Hs.
              ** apply Hacc. lia.
      * right. left. exists n, (Raise e). auto.
  - right. left. exists k, o. split; [lia | exact H].
  - right. right. exists k, f. split; [lia | exact H].
Qed.

(** X1.  Every invocation of the wrapper ends in one of three ways,
    whatever the operation does.  Some attempt [k + 1 <= max_retries] is the
    first that is not retried: then the wrapper's result is that attempt's
    outcome (its return value, or its exception, which is not retryable),
    the trace is [k] (call, sleep) pairs followed by the last call, and the
    world is the one that attempt left.  Or [time.sleep] rejects the delay
    that follows the retried attempt [k + 1]: then the wrapper raises what
    [time.sleep] raised, after the same trace.  Or all [max_retries]
    attempts were retried and every delay accepted: then the wrapper raises
    the retries-exhausted error, and every call of the trace is followed by
    a sleep. *)
Theorem wrapper_outcomes (args : Args) (w : World) :
  (exists k o w',
      k < Z.to_nat max_retries
      /\ (forall i, i < k ->
            exists e,
              attempt mul sleep_check time_sleep func initial_sleep_time
                backoff_factor i args w = Some (Raise e)
              /\ retryable e = true)
      /\ attempt mul sleep_check time_sleep func initial_sleep_time
           backoff_factor k args w = Some o
      /\ match o with
         | Return _ => True
         | Raise e => retryable e = false
         end
      /\ world_left_by mul sleep_check time_sleep func initial_sleep_time
           backoff_factor k args w = Some w'
      /\ retry_with_exponential_backoff mul sleep_check time_sleep func
           max_retries initial_sleep_time backoff_factor args w
         = Run o
               (retries mul backoff_factor k initial_sleep_time args
                ++ [Call args])
               w')
  \/ (exists k failure w',
         k < Z.to_nat max_retries
         /\ (forall i, i <= k ->
               exists e,
                 attempt mul sleep_check time_sleep func initial_sleep_time
                   backoff_factor i args w = Some (Raise e)
                 /\ retryable e = true)
         /\ sleep_check (grow mul backoff_factor (S k) initial_sleep_time)
            = Some failure
         /\ world_left_by mul sleep_check time_sleep func initial_sleep_time
              backoff_factor k args w = Some w'
         /\ retry_with_exponential_backoff mul sleep_check time_sleep func
              max_retries initial_sleep_time backoff_factor args w
            = Run (Raise (raised_by_sleep failure))
                  (retries mul backoff_factor k initial_sleep_time args
                   ++ [Call args])
                  w')
  \/ (exists w',
         (forall i, i < Z.to_nat max_retries ->
            exists e,
              attempt mul sleep_check time_sleep func initial_sleep_time
                backoff_factor i args w = Some (Raise e)
              /\ retryable e = true)
         /\ (forall i, 1 <= i <= Z.to_nat max_retries ->
               sleep_check (grow mul backoff_factor i initial_sleep_time)
               = None)
         /\ world_at mul sleep_check time_sleep func backoff_factor
              (Z.to_nat max_retries) initial_sleep_time args w = Some w'
         /\ retry_with_exponential_backoff mul sleep_check time_sleep func
              max_retries initial_sleep_time backoff_factor args w
            = Run (Raise (max_retries_exceeded max_retries))
                  (retries mul backoff_factor (Z.to_nat max_retries)
                     initial_sleep_time args)
                  w').
Proof.
  destruct (first_decisive_step args w (Z.to_nat max_retries))
    as [[Hall Hacc] | [(k & o & Hk & Hbefore & Ho & Hdec)
                      | (k & f & Hk & Hupto & Hrej)]].
  - right. right.
    destruct (wrapper_exhausted mul sleep_check time_sleep func max_retries
                initial_sleep_time backoff_factor args w Hall Hacc)
      as (w' & Hw' & Hrun).
    exists w'. auto.
  - left.
    destruct (wrapper_decided_by mul sleep_check time_sleep func max_retries
                initial_sleep_time backoff_factor k args w o
                ltac:(lia) Hbefore Ho Hdec)
      as (w' & Hw' & Hrun).
    exists k, o, w'. auto 10.
  - right. left.
    destruct (wrapper_sleep_rejected mul sleep_check time_sleep func
                max_retries initial_sleep_time backoff_factor k args w f
                ltac:(lia) Hupto Hrej)
      as (w' & Hw' & Hrun).
    exists k, f, w'. auto 10.
Qed.

(** *** Counting *)

Lemma for_range_counts n : forall s a w,
  List.length (calls (trace (loop n s a w))) <= n
  /\ List.length (delays (trace (loop n s a w)))
     <= List.length (calls (trace (loop n s a w)))
  /\ List.length (calls (trace (loop n s a w)))
     <= S (List.length (delays (trace (loop n s a w)))).
Proof.
  induction n as [|n IH]; intros s a w; simpl; [lia|].
  destruct (func a w) as [[r|e] w1]; simpl; [lia|].
  destruct (isinstance_Exception e); simpl; [|lia].
  destruct (rate_limit_message (str e)); simpl; [|lia].
  destruct (sleep_check (mul s backoff_factor)); simpl; [lia|].
  specialize (IH (mul s backoff_factor) a
                (time_sleep (mul s backoff_factor) w1)).
  lia.
Qed.

(** X2.  The budget is a hard cap: whatever the operation does, it is
    invoked at most [max_retries] times (never, when [max_retries] is
    negative), and the wrapper sleeps at most once per invocation: the
    number of sleeps is the number of invocations, or one less. *)
Theorem attempts_bounded_by_max_retries (args : Args) (w : World) :
  (Z.of_nat
     (List.length
        (calls (trace (retry_with_exponential_backoff mul sleep_check
                         time_sleep func max_retries initial_sleep_time
                         backoff_factor args w))))
   <= Z.max 0 max_retries)%Z
  /\ List.length
       (delays (trace (retry_with_exponential_backoff mul sleep_check
                         time_sleep func max_retries initial_sleep_time
                         backoff_factor args w)))
     <= List.length
          (calls (trace (retry_with_exponential_backoff mul sleep_check
                           time_sleep func max_retries initial_sleep_time
                           backoff_factor args w)))
  /\ List.length
       (calls (trace (retry_with_exponential_backoff mul sleep_check
                        time_sleep func max_retries initial_sleep_time
                        backoff_factor args w)))
     <= S (List.length
             (delays (trace (retry_with_exponential_backoff mul sleep_check
                               time_sleep func max_retries
                               initial_sleep_time backoff_factor args w)))).
Proof.
  rewrite wrapper_unfold.
  pose proof (for_range_counts (Z.to_nat max_retries) initial_sleep_time
                args w) as (H1 & H2 & H3).
  repeat split; [lia | exact H2 | exact H3].
Qed.

(** *** The backoff schedule *)

Lemma map_seq_shift {A : Type} (f : nat -> A) (k start : nat) :
  map f (seq (S start) k) = map (fun i => f (S i)) (seq start k).
Proof. now rewrite <- seq_shift, map_map. Qed.

Lemma for_range_delays n : forall s a w,
  delays (trace (loop n s a w))
  = map (fun i => grow mul backoff_factor i s)
      (seq 1 (List.length (delays (trace (loop n s a w))))).
Proof.
  induction n as [|n IH]; intros s a w; simpl; [reflexivity|].
  destruct (func a w) as [[r|e] w1]; simpl; [reflexivity|].
  destruct (isinstance_Exception e); simpl; [|reflexivity].
  destruct (rate_limit_message (str e)); simpl; [|reflexivity].
  destruct (sleep_check (mul s backoff_factor)); simpl; [reflexivity|].
  f_equal. rewrite map_seq_shift. apply IH.
Qed.

(** X3.  The delays do not depend on the operation: in every invocation
    the [i]-th sleep lasts [initial_sleep_time] multiplied [i] times by
    [backoff_factor], so the sequence of sleeps is a prefix of one fixed
    schedule; the operation only decides how long the prefix is. *)
Theorem delays_follow_backoff_schedule (args : Args) (w : World) :
  delays (trace (retry_with_exponential_backoff mul sleep_check time_sleep
                   func max_retries initial_sleep_time backoff_factor
                   args w))
  = map (fun i => grow mul backoff_factor i initial_sleep_time)
      (seq 1
         (List.length
            (delays (trace (retry_with_exponential_backoff mul sleep_check
                              time_sleep func max_retries initial_sleep_time
                              backoff_factor args w))))).
Proof. rewrite wrapper_unfold. apply for_range_delays. Qed.

(** *** What the wrapper raises *)

Lemma for_range_raises_not_retryable n : forall s a w e,
  result (loop n s a w) = Raise e -> retryable e = false.
Proof.
  induction n as [|n IH]; intros s a w e; simpl.
  - intros [= <-]. apply max_retries_exceeded_not_retryable.
  - destruct (func a w) as [[r|e'] w1]; simpl; [discriminate|].
    unfold retryable.
    destruct (isinstance_Exception e') eqn:Hi; simpl.
    + destruct (rate_limit_message (str e')) eqn:Hm; simpl.
      * destruct (sleep_check (mul s backoff_factor)) as [failure|]; simpl.
        -- intros [= <-]. exact (proj2_sig failure).
        -- apply IH.
      * intros [= <-]. now rewrite Hi, Hm.
    + intros [= <-]. now rewrite Hi.
Qed.

(** X4.  A rate-limit failure never reaches the caller: whatever the
    wrapper raises, the operation's own exception, an exception of
    [time.sleep] or the retries-exhausted error, is an exception that the
    wrapper itself would not retry. *)
Theorem wrapper_never_raises_retryable (args : Args) (w : World) :
  match result (retry_with_exponential_backoff mul sleep_check time_sleep
                  func max_retries initial_sleep_time backoff_factor args w)
  with
  | Return _ => True
  | Raise e => retryable e = false
  end.
Proof.
  rewrite wrapper_unfold.
  destruct (result (loop (Z.to_nat max_retries) initial_sleep_time args w))
    as [r|e] eqn:Hres; [exact I|].
  exact (for_range_raises_not_retryable _ _ _ _ _ Hres).
Qed.

(** X5.  Decorating twice adds no retries.  The outer wrapper, whatever its
    own budget (at least one attempt) and delays, invokes the inner wrapper
    exactly once and never sleeps: it returns what the inner wrapper
    returns, or raises what the inner wrapper raises. *)
Theorem nested_wrapper_adds_no_retry
  (outer_max_retries : Z) (outer_initial outer_backoff : T)
  (args : Args) (w : World) :
  (0 < outer_max_retries)%Z ->
  retry_with_exponential_backoff mul sleep_check time_sleep
    (as_operation
       (retry_with_exponential_backoff mul sleep_check time_sleep func
          max_retries initial_sleep_time backoff_factor))
    outer_max_retries outer_initial outer_backoff args w
  = Run (result (retry_with_exponential_backoff mul sleep_check time_sleep
                   func max_retries initial_sleep_time backoff_factor
                   args w))
        [Call args]
        (world_after (retry_with_exponential_backoff mul sleep_check
                        time_sleep func max_retries initial_sleep_time
                        backoff_factor args w)).
Proof.
  intros Hmax. rewrite (wrapper_unfold _ _ _ (as_operation _)).
  destruct (Z.to_nat outer_max_retries) as [|n] eqn:Hn; [lia|].
  set (inner := retry_with_exponential_backoff mul sleep_check time_sleep
                  func max_retries initial_sleep_time backoff_factor).
  destruct (result (inner args w)) as [r|e] eqn:Hres.
  - apply for_range_return. unfold as_operation. now rewrite Hres.
  - apply for_range_propagate.
    + unfold as_operation. now rewrite Hres.
    + unfold inner in Hres. rewrite wrapper_unfold in Hres.
      exact (for_range_raises_not_retryable _ _ _ _ _ Hres).
Qed.

(** *** Larger budgets *)

Lemma for_range_budget (max' : Z) (r : Res) (n : nat) : forall m s a w,
  n <= m ->
  result (loop n s a w) = Return r ->
  for_range mul sleep_check time_sleep func max' backoff_factor m s a w
  = loop n s a w.
Proof.
  induction n as [|n IH]; intros m s a w Hnm; simpl; [discriminate|].
  destruct m as [|m]; [lia|]. simpl.
  destruct (func a w) as [[r'|e] w1]; simpl; [reflexivity|].
  destruct (isinstance_Exception e); simpl; [|reflexivity].
  destruct (rate_limit_message (str e)); simpl; [|reflexivity].
  destruct (sleep_check (mul s backoff_factor)); simpl; [reflexivity|].
  intros Hres. rewrite (IH m) by (assumption || lia). reflexivity.
Qed.

(** X6.  A success does not depend on the budget left over: when the
    wrapper returns a result with [max_retries], it does exactly the same
    (same result, same invocations and sleeps, same world) with any larger
    budget. *)
Theorem success_is_stable_under_larger_budget
  (larger : Z) (r : Res) (args : Args) (w : World) :
  (max_retries <= larger)%Z ->
  result (retry_with_exponential_backoff mul sleep_check time_sleep func
            max_retries initial_sleep_time backoff_factor args w)
  = Return r ->
  retry_with_exponential_backoff mul sleep_check time_sleep func larger
    initial_sleep_time backoff_factor args w
  = retry_with_exponential_backoff mul sleep_check time_sleep func
      max_retries initial_sleep_time backoff_factor args w.
Proof.
  intros Hle Hres. rewrite !wrapper_unfold in *.
  apply (for_range_budget larger r); [lia | exact Hres].
Qed.

End RetryCoverage.

(** *** Messages in context *)

Lemma string_app_assoc (s t u : string) :
  (s ++ t) ++ u = s ++ (t ++ u).
Proof. induction s as [|c s IH]; simpl; [reflexivity | now rewrite IH]. Qed.

(** X11.  A rate-limit message stays one when text is put around it, as
    when an error is wrapped into a longer message. *)
Theorem rate_limit_message_in_context (pre msg post : string) :
  rate_limit_message msg = true ->
  rate_limit_message (pre ++ msg ++ post) = true.
Proof.
  rewrite !rate_limit_message_iff. intros (a & b & H).
  exists (normalized pre ++ a), (b ++ normalized post).
  rewrite !normalized_app, H.
  now rewrite !string_app_assoc.
Qed.

(** *** The wrapper's further properties at concrete inputs *)

Lemma nested_wrapper_adds_no_retry_witness :
  (0 < 5)%Z
  /\ retry_with_exponential_backoff PrimFloat.mul float_sleep_check
       sleep_counts_nothing
       (as_operation
          (retry_with_exponential_backoff PrimFloat.mul float_sleep_check
             sleep_counts_nothing (scripted always_rate_limited)
             3 1%float 2%float))
       5 1%float 2%float "prompt" 0
     = Run (Raise (Exception "Maximum retries 3 exceeded"))
         [Call "prompt"]%list 3.
Proof.
  split; [lia|].
  apply (nested_wrapper_adds_no_retry PrimFloat.mul float_sleep_check
           sleep_counts_nothing (scripted always_rate_limited)
           3 1%float 2%float 5 1%float 2%float "prompt" 0).
  lia.
Defined.

Lemma success_is_stable_under_larger_budget_witness :
  (3 <= 20)%Z
  /\ result (retry_with_exponential_backoff PrimFloat.mul float_sleep_check
               sleep_counts_nothing (scripted rate_limited_twice)
               3 1%float 2%float "prompt" 0)
     = Return "ok"
  /\ retry_with_exponential_backoff PrimFloat.mul float_sleep_check
       sleep_counts_nothing (scripted rate_limited_twice)
       20 1%float 2%float "prompt" 0
     = retry_with_exponential_backoff PrimFloat.mul float_sleep_check
         sleep_counts_nothing (scripted rate_limited_twice)
         3 1%float 2%float "prompt" 0.
Proof.
  split; [lia|]. split; [reflexivity|].
  apply (success_is_stable_under_larger_budget PrimFloat.mul float_sleep_check
           sleep_counts_nothing (scripted rate_limited_twice)
           3 1%float 2%float 20 "ok" "prompt" 0);
    [lia | reflexivity].
Defined.

Lemma rate_limit_message_in_context_witness :
  rate_limit_message "RATE_LIMIT" = true
  /\ rate_limit_message ("API error: " ++ "RATE_LIMIT" ++ " (429)") = true.
Proof.
  split; [reflexivity|].
  apply (rate_limit_message_in_context "API error: " "RATE_LIMIT" " (429)").
  reflexivity.
Defined.

(** * Further properties of the timestamp formatter *)

Local Open Scope Z_scope.

Lemma lex_Eq_r (c : comparison) : lex c Eq = c.
Proof. now destruct c. Qed.

Lemma lex_Eq_iff (c d : comparison) : lex c d = Eq <-> c = Eq /\ d = Eq.
Proof. destruct c; simpl; intuition congruence. Qed.

Lemma string_compare_refl (s : string) : String.compare s s = Eq.
Proof.
  induction s as [|c s IH]; [reflexivity|].
  now rewrite string_compare_cons.
Qed.

(** The timestamp looks at the datetime to the second only. *)
Lemma timestamp_str_to_the_second (zero_filled : bool) (dt : datetime) :
  timestamp_str zero_filled (to_the_second dt) = timestamp_str zero_filled dt.
Proof. reflexivity. Qed.

(** Equal field-by-field texts come from the same second. *)
Lemma fields_of_inj (t1 t2 : datetime) :
  valid_datetime t1 -> valid_datetime t2 ->
  fields_of t1 = fields_of t2 ->
  to_the_second t1 = to_the_second t2.
Proof.
  intros H1 H2 Heq.
  pose proof (fields_of_compare t1 t2 H1 H2) as Hc.
  rewrite Heq, string_compare_refl in Hc. symmetry in Hc.
  repeat (apply lex_Eq_iff in Hc; destruct Hc as [? Hc]).
  unfold to_the_second. f_equal; now apply Z.compare_eq_iff.
Qed.

(** A year has no hyphen in it, so the first hyphen of a timestamp ends the
    year however many digits that has. *)

Lemma year_without_hyphen (y : Z) :
  0 <= y < 10000 -> all_chars not_hyphen (PyStr.of_int y) = true.
Proof.
  intros Hy.
  apply (forallb_below (fun n => all_chars not_hyphen (PyStr.of_int n))
           10000); [vm_compute; reflexivity | exact Hy].
Qed.

Lemma split_at_first_hyphen (s1 : string) : forall s2 t1 t2,
  all_chars not_hyphen s1 = true ->
  all_chars not_hyphen s2 = true ->
  s1 ++ String "-" t1 = s2 ++ String "-" t2 ->
  s1 = s2 /\ t1 = t2.
Proof.
  induction s1 as [|c s1 IH]; intros [|d s2] t1 t2 Hs1 Hs2 H; simpl in *.
  - injection H as ->. auto.
  - injection H as <- _. discriminate Hs2.
  - injection H as -> _. discriminate Hs1.
  - injection H as -> H.
    apply andb_true_iff in Hs1 as [_ Hs1].
    apply andb_true_iff in Hs2 as [_ Hs2].
    destruct (IH _ _ _ Hs1 Hs2 H) as [-> ->]. auto.
Qed.

(** However the platform writes the year, equal timestamps have equal
    field-by-field texts. *)
Lemma timestamp_str_eq_fields (zero_filled : bool) (t1 t2 : datetime) :
  valid_datetime t1 -> valid_datetime t2 ->
  timestamp_str zero_filled t1 = timestamp_str zero_filled t2 ->
  fields_of t1 = fields_of t2.
Proof.
  intros H1 H2.
  rewrite (timestamp_str_after_year _ _ H1),
    (timestamp_str_after_year _ _ H2), !fields_of_after_year.
  destruct H1 as (Hy1 & _), H2 as (Hy2 & _).
  destruct zero_filled; cbn [year_text].
  - now rewrite !zfill_4_fixed by lia.
  - intros H.
    apply split_at_first_hyphen in H as [Hy Hrest];
      try (apply year_without_hyphen; lia).
    rewrite <- !zfill_4_fixed by lia. now rewrite Hy, Hrest.
Qed.

(** X8.  From the year 1000 on, comparing two timestamps as strings is
    comparing the two instants taken to the second: the earlier second
    gives the smaller string, the later second the greater one, and the
    same second the same string.  This holds however the platform writes
    [%Y]. *)
Theorem timestamp_str_compare (zero_filled : bool) (t1 t2 : datetime) :
  valid_datetime t1 -> valid_datetime t2 ->
  1000 <= year t1 -> 1000 <= year t2 ->
  String.compare (timestamp_str zero_filled t1) (timestamp_str zero_filled t2)
  = datetime_compare (to_the_second t1) (to_the_second t2).
Proof.
  intros H1 H2 Hy1 Hy2.
  rewrite (timestamp_str_fields _ t1 H1 Hy1),
    (timestamp_str_fields _ t2 H2 Hy2).
  rewrite (fields_of_compare t1 t2 H1 H2).
  unfold datetime_compare, to_the_second. simpl.
  now rewrite lex_Eq_r.
Qed.

(** X9.  Two valid datetimes get the same timestamp exactly when they lie
    in the same second: names made from timestamps collide within one
    second and never otherwise.  This holds for every year from 1 to 9999
    and however the platform writes [%Y]. *)
Theorem timestamp_str_collision (zero_filled : bool) (t1 t2 : datetime) :
  valid_datetime t1 -> valid_datetime t2 ->
  (timestamp_str zero_filled t1 = timestamp_str zero_filled t2
   <-> to_the_second t1 = to_the_second t2).
Proof.
  intros H1 H2. split.
  - intros Heq. apply (fields_of_inj _ _ H1 H2).
    exact (timestamp_str_eq_fields _ _ _ H1 H2 Heq).
  - intros Heq.
    rewrite <- (timestamp_str_to_the_second _ t1),
      <- (timestamp_str_to_the_second _ t2).
    now rewrite Heq.
Qed.

Lemma timestamp_str_compare_witness :
  valid_datetime (Datetime 2024 2 29 23 59 59 999999)
  /\ valid_datetime (Datetime 2024 3 1 0 0 0 0)
  /\ 1000 <= year (Datetime 2024 2 29 23 59 59 999999)
  /\ 1000 <= year (Datetime 2024 3 1 0 0 0 0)
  /\ String.compare "2024-02-29_235959" "2024-03-01_000000" = Lt.
Proof.
  assert (H1 : valid_datetime (Datetime 2024 2 29 23 59 59 999999))
    by decide_by_computation.
  assert (H2 : valid_datetime (Datetime 2024 3 1 0 0 0 0))
    by decide_by_computation.
  assert (Hy1 : 1000 <= year (Datetime 2024 2 29 23 59 59 999999))
    by decide_by_computation.
  assert (Hy2 : 1000 <= year (Datetime 2024 3 1 0 0 0 0))
    by decide_by_computation.
  split; [exact H1|]. split; [exact H2|].
  split; [exact Hy1|]. split; [exact Hy2|].
  exact (timestamp_str_compare false _ _ H1 H2 Hy1 Hy2).
Defined.

Lemma timestamp_str_collision_witness :
  valid_datetime (Datetime 999 3 7 14 23 5 1)
  /\ valid_datetime (Datetime 999 3 7 14 23 5 999999)
  /\ timestamp_str false (Datetime 999 3 7 14 23 5 1)
     = timestamp_str false (Datetime 999 3 7 14 23 5 999999).
Proof.
  assert (H1 : valid_datetime (Datetime 999 3 7 14 23 5 1))
    by decide_by_computation.
  assert (H2 : valid_datetime (Datetime 999 3 7 14 23 5 999999))
    by decide_by_computation.
  split; [exact H1|]. split; [exact H2|].
  apply (timestamp_str_collision false _ _ H1 H2). reflexivity.
Defined.
